(** * UK population dashboard (for_streamlit.py): data pipeline and charts

    A shallow embedding of the pandas pipeline of [for_streamlit.py]:
    the two preprocessors, the per-section filters and aggregation, and the
    chart specifications handed to the plotting library.

    Tables are lists of row records (a missing cell is not modelled: every
    cell of a column the pipeline reads is present).  Integer columns are
    int64: sums wrap around, and a conversion that does not fit raises.
    Float columns are binary64 values that the pipeline only passes on.
    Strings are byte strings; the order on them is the order of code
    points, and [int] is modelled on ASCII text. *)

From Stdlib Require Import ZArith List String Ascii Bool Lia.
From Stdlib Require Import Permutation Sorted Floats OrdersEx RelationClasses.
From Stdlib Require Import DecimalString.
Import ListNotations.
Open Scope string_scope.
Open Scope Z_scope.

Set Implicit Arguments.

(** ** Failure: the exceptions the preprocessing can raise *)

Inductive exn := ValueError | OverflowError.

Inductive result (A : Type) :=
| Ok (a : A)
| Raise (e : exn).
Arguments Ok {A} a.
Arguments Raise {A} e.

Definition bind {A B} (m : result A) (k : A -> result B) : result B :=
  match m with
  | Ok a => k a
  | Raise e => Raise e
  end.

Notation "x <- m ;; k" := (bind m (fun x => k))
  (at level 61, m at next level, right associativity).

(** Element by element, left to right; the first exception wins. *)
Fixpoint mapM {A B} (f : A -> result B) (l : list A) : result (list B) :=
  match l with
  | [] => Ok []
  | a :: l' => b <- f a ;; bs <- mapM f l' ;; Ok (b :: bs)
  end.

(** ** int64 arithmetic *)

Definition INT64_MIN : Z := - 2 ^ 63.
Definition INT64_MAX : Z := 2 ^ 63 - 1.

Definition fits_int64 (z : Z) : bool := (INT64_MIN <=? z) && (z <=? INT64_MAX).

Definition wrap64 (z : Z) : Z := (z + 2 ^ 63) mod 2 ^ 64 - 2 ^ 63.

Definition add64 (a b : Z) : Z := wrap64 (a + b).

(** [Series.sum()] of an int64 column. *)
Definition sum64 (l : list Z) : Z := fold_left add64 l 0.

(** The exact (unbounded) sum, for comparison. *)
Definition Zsum (l : list Z) : Z := fold_right Z.add 0 l.

(** ** Python values of an object column, and [int(...)] *)

Inductive pyobj :=
| PyStr (s : string)
| PyInt (z : Z).

Definition pyobj_eqb (a b : pyobj) : bool :=
  match a, b with
  | PyStr s, PyStr t => String.eqb s t
  | PyInt x, PyInt y => Z.eqb x y
  | _, _ => false
  end.

Module PyLong.

(** [Py_ISSPACE]: space, and \t \n \v \f \r. *)
Definition Py_ISSPACE (c : ascii) : bool :=
  let n := nat_of_ascii c in
  ((9 <=? n) && (n <=? 13) || (n =? 32))%nat.

Definition digit_value (c : ascii) : option Z :=
  let n := nat_of_ascii c in
  if ((48 <=? n) && (n <=? 57))%nat then Some (Z.of_nat n - 48) else None.

Definition is_underscore (c : ascii) : bool := Ascii.eqb c "_".

Fixpoint skip_spaces (s : string) : string :=
  match s with
  | String c s' => if Py_ISSPACE c then skip_spaces s' else s
  | EmptyString => s
  end.

(** The digit loop of [long_from_string_base]: digits and single
    underscores; [prev_us] records that the previous character was an
    underscore.  Returns the value, the number of digits and the rest. *)
Fixpoint scan (s : string) (prev_us : bool) (acc : Z) (digits : nat)
  : option (Z * nat * string) :=
  match s with
  | String c s' =>
      if is_underscore c then
        if prev_us then None else scan s' true acc digits
      else
        match digit_value c with
        | Some d => scan s' false (10 * acc + d) (S digits)
        | None => if prev_us then None else Some (acc, digits, s)
        end
  | EmptyString => if prev_us then None else Some (acc, digits, s)
  end.

(** The interpreter's default limit on the digits of a decimal literal. *)
Definition MAX_STR_DIGITS : nat := 4300.

Definition long_from_string_base (s : string) : option (Z * string) :=
  match s with
  | String "_" _ => None
  | _ =>
      match scan s false 0 0 with
      | Some (v, digits, rest) =>
          if (digits =? 0)%nat then None
          else if (MAX_STR_DIGITS <? digits)%nat then None
          else Some (v, skip_spaces rest)
      | None => None
      end
  end.

(** [PyLong_FromString(s, base=10)] on an ASCII string: [None] is the
    ValueError "invalid literal for int() with base 10". *)
Definition PyLong_FromString (s : string) : option Z :=
  let s := skip_spaces s in
  let '(sign, s) :=
    match s with
    | String "+" s' => (1, s')
    | String "-" s' => (-1, s')
    | _ => (1, s)
    end in
  match long_from_string_base s with
  | Some (v, EmptyString) => Some (sign * v)
  | _ => None
  end.

Definition is_ascii (s : string) : bool :=
  forallb (fun c => (nat_of_ascii c <? 128)%nat) (list_ascii_of_string s).

End PyLong.

(** [int(o)] for the objects of a column. *)
Definition py_int (o : pyobj) : option Z :=
  match o with
  | PyInt z => Some z
  | PyStr s => PyLong.PyLong_FromString s
  end.

Definition pyobj_is_ascii (o : pyobj) : bool :=
  match o with
  | PyInt _ => true
  | PyStr s => PyLong.is_ascii s
  end.

(** [Series.replace(old, new)]: exact equality, element by element. *)
Definition replace (old new : pyobj) (col : list pyobj) : list pyobj :=
  map (fun o => if pyobj_eqb o old then new else o) col.

(** One element of [astype(int)]: [int(o)], then the store into int64. *)
Definition int64_of_pyobj (o : pyobj) : result Z :=
  match py_int o with
  | None => Raise ValueError
  | Some z => if fits_int64 z then Ok z else Raise OverflowError
  end.

Definition astype_int (col : list pyobj) : result (list Z) :=
  mapM int64_of_pyobj col.

(** ** [pd.cut] with explicit bin edges *)

Inductive edge :=
| Fin (z : Z)
| Inf.

Definition edge_ltb (b : edge) (x : Z) : bool :=
  match b with
  | Fin z => z <? x
  | Inf => false
  end.

Definition edge_leb (x : Z) (b : edge) : bool := negb (edge_ltb b x).

(** [np.searchsorted(bins, x, side='left')] on ascending [bins]: the number
    of edges strictly below [x]. *)
Fixpoint searchsorted_left (bins : list edge) (x : Z) : nat :=
  match bins with
  | [] => 0
  | b :: bs => if edge_ltb b x then S (searchsorted_left bs x) else 0
  end.

(** [pd.cut(x, bins, labels, right=True)]: [None] is the missing value given
    to an [x] that falls in no interval. *)
Definition cut (bins : list edge) (labels : list string) (x : Z)
  : option string :=
  let ids := searchsorted_left bins x in
  if ((ids =? 0) || (ids =? List.length bins))%nat then None
  else nth_error labels (ids - 1).

Definition bins : list edge :=
  [Fin (-1); Fin 17; Fin 24; Fin 39; Fin 59; Fin 74; Inf].

Definition labels : list string :=
  ["0-17"; "18-24"; "25-39"; "40-59"; "60-74"; "75+"].

(** ** Ordering of keys, and the stable multi-column sort *)

(** Three-way comparison of sort and group keys: strings by code units, as
    Python compares them, integers by value, tuples lexicographically. *)
Class Cmp (K : Type) := cmp : K -> K -> comparison.

#[export] Instance Cmp_string : Cmp string := String_as_OT.compare.
#[export] Instance Cmp_Z : Cmp Z := Z.compare.
#[export] Instance Cmp_prod {A B} `{Cmp A} `{Cmp B} : Cmp (A * B) :=
  fun x y =>
    match cmp (fst x) (fst y) with
    | Eq => cmp (snd x) (snd y)
    | c => c
    end.

Definition leb {K} `{Cmp K} (x y : K) : bool :=
  match cmp x y with
  | Gt => false
  | _ => true
  end.

Definition eqb {K} `{Cmp K} (x y : K) : bool :=
  match cmp x y with
  | Eq => true
  | _ => false
  end.

Section Sorting.
Context {A K : Type} `{Cmp K} (key : A -> K).

(** [x] goes before the first row whose key is not below its own, so a row
    stays ahead of the rows with an equal key that followed it. *)
Fixpoint insert_row (x : A) (l : list A) : list A :=
  match l with
  | [] => [x]
  | y :: l' => if leb (key x) (key y) then x :: l else y :: insert_row x l'
  end.

(** [DataFrame.sort_values(by=[...])] on several columns: ascending and
    stable (pandas sorts the combined key codes with a stable sort). *)
Definition sort_values (l : list A) : list A := fold_right insert_row [] l.

End Sorting.

(** [sorted(list_of_str)]. *)
Definition sorted (l : list string) : list string := sort_values (fun s => s) l.

(** ** The tables *)

Module Raw.
Record row := {
  name : string;
  sex : string;
  age : pyobj;
  population_2011 : Z;
  population_2022 : Z
}.
End Raw.

Module Detail.
Record row := {
  name : string;
  sex : string;
  age : pyobj;
  population_2011 : Z;
  population_2022 : Z;
  age_numeric : Z;
  age_band : option string
}.
End Detail.

(** The output of [melt], before [Year] replaces [Year_Col]. *)
Module Long.
Record row := {
  name : string;
  sex : string;
  age : pyobj;
  age_numeric : Z;
  age_band : option string;
  Year_Col : string;
  Population : Z
}.
End Long.

Module Melted.
Record row := {
  name : string;
  sex : string;
  age : pyobj;
  age_numeric : Z;
  age_band : option string;
  Population : Z;
  Year : Z
}.
End Melted.

(** ** preprocess_age_gender_data *)

(** The three columns side by side: the raw rows with the two new columns. *)
Fixpoint assign (raw : list Raw.row) (age_numeric : list Z)
  (age_band : list (option string)) : list Detail.row :=
  match raw, age_numeric, age_band with
  | r :: raw', a :: ages', b :: bands' =>
      {| Detail.name := Raw.name r;
         Detail.sex := Raw.sex r;
         Detail.age := Raw.age r;
         Detail.population_2011 := Raw.population_2011 r;
         Detail.population_2022 := Raw.population_2022 r;
         Detail.age_numeric := a;
         Detail.age_band := b |} :: assign raw' ages' bands'
  | _, _, _ => []
  end.

Definition unpivot (col : string) (value : Detail.row -> Z) (d : Detail.row)
  : Long.row :=
  {| Long.name := Detail.name d;
     Long.sex := Detail.sex d;
     Long.age := Detail.age d;
     Long.age_numeric := Detail.age_numeric d;
     Long.age_band := Detail.age_band d;
     Long.Year_Col := col;
     Long.Population := value d |}.

(** [melt(id_vars, value_vars=[population_2011, population_2022])]: one
    block of rows per value column, each in the order of the table. *)
Definition melt (detail : list Detail.row) : list Long.row :=
  map (unpivot "population_2011" Detail.population_2011) detail
  ++ map (unpivot "population_2022" Detail.population_2022) detail.

Definition is_digit (c : ascii) : bool :=
  match PyLong.digit_value c with
  | Some _ => true
  | None => false
  end.

Fixpoint take_digits (s : string) : string :=
  match s with
  | String c s' => if is_digit c then String c (take_digits s') else EmptyString
  | EmptyString => EmptyString
  end.

(** [str.extract] of the pattern (\d+): the first run of digits, or nothing. *)
Fixpoint str_extract_digits (s : string) : option string :=
  match s with
  | String c s' => if is_digit c then Some (take_digits s) else str_extract_digits s'
  | EmptyString => None
  end.

Definition Year_of (Year_Col : string) : result Z :=
  match str_extract_digits Year_Col with
  | Some digits => int64_of_pyobj (PyStr digits)
  | None => Raise ValueError
  end.

Definition with_Year (u : Long.row) : result Melted.row :=
  y <- Year_of (Long.Year_Col u) ;;
  Ok {| Melted.name := Long.name u;
        Melted.sex := Long.sex u;
        Melted.age := Long.age u;
        Melted.age_numeric := Long.age_numeric u;
        Melted.age_band := Long.age_band u;
        Melted.Population := Long.Population u;
        Melted.Year := y |}.

Definition melted_key (m : Melted.row) : string * Z * string * Z :=
  (Melted.name m, Melted.Year m, Melted.sex m, Melted.age_numeric m).

(** The long-form table before the final sort. *)
Definition melted_unsorted (detail : list Detail.row) : result (list Melted.row) :=
  mapM with_Year (melt detail).

Definition preprocess_age_gender_data (df_age_gender_raw : list Raw.row)
  : result (list Detail.row * list Melted.row) :=
  age_numeric <-
    astype_int (replace (PyStr "90+") (PyInt 90) (map Raw.age df_age_gender_raw)) ;;
  let age_band := map (cut bins labels) age_numeric in
  let df_age_gender_detail := assign df_age_gender_raw age_numeric age_band in
  df_age_gender_melted <- melted_unsorted df_age_gender_detail ;;
  Ok (df_age_gender_detail, sort_values melted_key df_age_gender_melted).

(** ** preprocess_density_data *)

(** The density table as loaded; the fields stand for the csv headers
    Code, Name, Geography, Area (sq km), Estimated Population mid-2022,
    2022 people per sq. km, Estimated Population mid-2011 and
    2011 people per sq. km. *)
Module DensityRaw.
Record row := {
  Code : string;
  Name : string;
  Geography : string;
  Area_sq_km : float;
  Estimated_Population_mid_2022 : Z;
  people_per_sq_km_2022 : float;
  Estimated_Population_mid_2011 : Z;
  people_per_sq_km_2011 : float
}.
End DensityRaw.

Module Density.
Record row := {
  code : string;
  name : string;
  geography : string;
  area_sq_km : float;
  population_2022 : Z;
  density_2022 : float;
  population_2011 : Z;
  density_2011 : float
}.
End Density.

Definition rename (r : DensityRaw.row) : Density.row :=
  {| Density.code := DensityRaw.Code r;
     Density.name := DensityRaw.Name r;
     Density.geography := DensityRaw.Geography r;
     Density.area_sq_km := DensityRaw.Area_sq_km r;
     Density.population_2022 := DensityRaw.Estimated_Population_mid_2022 r;
     Density.density_2022 := DensityRaw.people_per_sq_km_2022 r;
     Density.population_2011 := DensityRaw.Estimated_Population_mid_2011 r;
     Density.density_2011 := DensityRaw.people_per_sq_km_2011 r |}.

Definition preprocess_density_data (df_density_raw : list DensityRaw.row)
  : list Density.row :=
  map rename df_density_raw.

(** ** Chart specifications *)

Definition dquote : string := String (ascii_of_nat 34) EmptyString.

Definition FONT_FAMILY : string :=
  dquote ++ "Helvetica Neue" ++ dquote ++ ", Helvetica, Arial, sans-serif".
Definition COLOR_BG : string := "#FFFFFF".
Definition COLOR_TEXT : string := "#000000".
Definition COLOR_PRIMARY : string := "#56B4E9".
Definition COLOR_SECONDARY : string := "#999999".
Definition COLOR_MALE : string := "#0072B2".
Definition COLOR_FEMALE : string := "#E69F00".

(** The chart objects of plotly.graph_objects. *)
Module go.

(** A [go.Bar] trace with values of type [Y]. *)
Record Bar (Y : Type) := {
  x : list string;
  y : list Y;
  name : string;
  marker_color : string;
  hovertemplate : string
}.

Record Margin := { l : Z; r : Z; t : Z; b : Z }.

Record Layout := {
  title : string;
  xaxis_visible : bool;
  yaxis_visible : bool;
  xaxis_title : option string;
  yaxis_title : option string;
  barmode : option string;
  hovermode : option string;
  legend_title_text : option string;
  categoryorder : option string;
  categoryarray : option (list string);
  paper_bgcolor : string;
  plot_bgcolor : string;
  font_family : string;
  font_color : string;
  margin : option Margin
}.

Record Figure (Y : Type) := {
  data : list (Bar Y);
  layout : Layout
}.

End go.

(** The placeholder: no trace, both axes hidden, the message as title. *)
Definition create_empty_figure {Y} (title_text : string) : go.Figure Y :=
  {| go.data := [];
     go.layout :=
       {| go.title := title_text;
          go.xaxis_visible := false;
          go.yaxis_visible := false;
          go.xaxis_title := None;
          go.yaxis_title := None;
          go.barmode := None;
          go.hovermode := None;
          go.legend_title_text := None;
          go.categoryorder := None;
          go.categoryarray := None;
          go.paper_bgcolor := COLOR_BG;
          go.plot_bgcolor := COLOR_BG;
          go.font_family := FONT_FAMILY;
          go.font_color := COLOR_TEXT;
          go.margin := None |} |}.

Definition grouped_bar_layout (title_text xaxis yaxis legend : string)
  (selected : list string) : go.Layout :=
  {| go.title := title_text;
     go.xaxis_visible := true;
     go.yaxis_visible := true;
     go.xaxis_title := Some xaxis;
     go.yaxis_title := Some yaxis;
     go.barmode := Some "group";
     go.hovermode := Some "x unified";
     go.legend_title_text := Some legend;
     go.categoryorder := Some "array";
     go.categoryarray := Some (sorted selected);
     go.paper_bgcolor := COLOR_BG;
     go.plot_bgcolor := COLOR_BG;
     go.font_family := FONT_FAMILY;
     go.font_color := COLOR_TEXT;
     go.margin := Some {| go.l := 40; go.r := 20; go.t := 60; go.b := 40 |} |}.

(** [Series.isin(values)]. *)
Definition isin (s : string) (values : list string) : bool :=
  existsb (String.eqb s) values.

(** ** Section 1: population density comparison *)

(** [sort_values] on a single column runs numpy's default sort, which
    promises an ascending result and nothing about rows with equal keys. *)
Record Sorter := {
  sort_by : forall A : Type, (A -> string) -> list A -> list A;
  sort_by_perm : forall A (key : A -> string) l, Permutation l (sort_by key l);
  sort_by_sorted : forall A (key : A -> string) l,
    StronglySorted (fun a c => leb (key a) (key c) = true) (sort_by key l)
}.

Section DensityComparison.
Variable numpy_sort : Sorter.

Definition filtered_df_density (df_density : list Density.row)
  (selected_density_locations : list string) : list Density.row :=
  sort_by numpy_sort Density.name
    (filter (fun d => isin (Density.name d) selected_density_locations) df_density).

Definition fig_density (filtered : list Density.row)
  (selected_density_locations : list string) : go.Figure float :=
  {| go.data :=
       [ {| go.x := map Density.name filtered;
            go.y := map Density.density_2011 filtered;
            go.name := "Density 2011";
            go.marker_color := COLOR_SECONDARY;
            go.hovertemplate :=
              "<b>%{x}</b><br>" ++ "2011 Density: %{y:.1f} per sq km<extra></extra>" |};
         {| go.x := map Density.name filtered;
            go.y := map Density.density_2022 filtered;
            go.name := "Density 2022";
            go.marker_color := COLOR_PRIMARY;
            go.hovertemplate :=
              "<b>%{x}</b><br>" ++ "2022 Density: %{y:.1f} per sq km<extra></extra>" |} ];
     go.layout :=
       grouped_bar_layout "Population Density: 2011 vs 2022" "Location"
         "People per Square Kilometer" "Year" selected_density_locations |}.

(** Lines 102-140: what the density section hands to [st.plotly_chart]. *)
Definition density_chart (df_density : list Density.row)
  (selected_density_locations : list string) : go.Figure float :=
  match selected_density_locations with
  | [] =>
      create_empty_figure
        "Please select at least one location for density comparison."
  | _ =>
      fig_density (filtered_df_density df_density selected_density_locations)
        selected_density_locations
  end.

End DensityComparison.

(** ** Section 3: gender population comparison *)

Module Grouped.
Record row := {
  name : string;
  sex : string;
  Population : Z
}.
End Grouped.

(** One step of the aggregation loop: the running sums are kept in
    ascending key order, one entry per key met so far. *)
Fixpoint group_add {K} `{Cmp K} (k : K) (v : Z) (acc : list (K * Z))
  : list (K * Z) :=
  match acc with
  | [] => [(k, add64 0 v)]
  | (k', s) :: rest =>
      match cmp k k' with
      | Lt => (k, add64 0 v) :: acc
      | Eq => (k', add64 s v) :: rest
      | Gt => (k', s) :: group_add k v rest
      end
  end.

(** [groupby(keys)[value].sum()]: groups in ascending key order, int64 sums. *)
Definition groupby_sum {A K} `{Cmp K} (key : A -> K) (value : A -> Z)
  (rows : list A) : list (K * Z) :=
  fold_left (fun acc row => group_add (key row) (value row) acc) rows [].

Definition grouped_row_of (e : string * string * Z) : Grouped.row :=
  let '(n, s, p) := e in
  {| Grouped.name := n; Grouped.sex := s; Grouped.Population := p |}.

Definition reset_index (g : list (string * string * Z)) : list Grouped.row :=
  map grouped_row_of g.

(** [age_band == selected]: a missing band equals nothing. *)
Definition band_eqb (age_band : option string) (selected : string) : bool :=
  match age_band with
  | Some b => String.eqb b selected
  | None => false
  end.

Definition filtered_df_gender_melted (df_age_gender_melted : list Melted.row)
  (selected_gender_comp_year : Z) (selected_gender_comp_locs : list string)
  (selected_gender_comp_age_band : string) : list Melted.row :=
  let filtered :=
    filter (fun m => (Melted.Year m =? selected_gender_comp_year)
                     && isin (Melted.name m) selected_gender_comp_locs)
      df_age_gender_melted in
  if negb (String.eqb selected_gender_comp_age_band "All Ages") then
    filter (fun m => band_eqb (Melted.age_band m) selected_gender_comp_age_band)
      filtered
  else filtered.

Definition age_title_part (selected_gender_comp_age_band : string) : string :=
  if negb (String.eqb selected_gender_comp_age_band "All Ages") then
    "(" ++ selected_gender_comp_age_band ++ ")"
  else "(All Ages)".

Definition group_key (m : Melted.row) : string * string :=
  (Melted.name m, Melted.sex m).

(** Lines 239-253: the grouped table, before the emptiness test. *)
Definition grouped_df_gender (df_age_gender_melted : list Melted.row)
  (selected_gender_comp_year : Z) (selected_gender_comp_locs : list string)
  (selected_gender_comp_age_band : string) : list Grouped.row :=
  reset_index
    (groupby_sum group_key Melted.Population
       (filtered_df_gender_melted df_age_gender_melted selected_gender_comp_year
          selected_gender_comp_locs selected_gender_comp_age_band)).

Definition grouped_key (g : Grouped.row) : string * string :=
  (Grouped.name g, Grouped.sex g).

(** Line 258. *)
Definition grouped_df_gender_sorted (grouped : list Grouped.row)
  : list Grouped.row :=
  sort_values grouped_key grouped.

Definition df_female (grouped : list Grouped.row) : list Grouped.row :=
  filter (fun g => String.eqb (Grouped.sex g) "F") grouped.

Definition df_male (grouped : list Grouped.row) : list Grouped.row :=
  filter (fun g => String.eqb (Grouped.sex g) "M") grouped.

(** [str(n)] of an integer. *)
Definition str (n : Z) : string := NilZero.string_of_int (Z.to_int n).

Definition fig_gender_comp (grouped : list Grouped.row)
  (selected_gender_comp_year : Z) (selected_gender_comp_locs : list string)
  (selected_gender_comp_age_band : string) : go.Figure Z :=
  {| go.data :=
       [ {| go.x := map Grouped.name (df_female grouped);
            go.y := map Grouped.Population (df_female grouped);
            go.name := "Female";
            go.marker_color := COLOR_FEMALE;
            go.hovertemplate :=
              "<b>%{x}</b><br>" ++ "Females: %{y:,}<br>"
              ++ "Year: " ++ str selected_gender_comp_year ++ "<br>"
              ++ "Age Band: " ++ selected_gender_comp_age_band
              ++ "<extra></extra>" |};
         {| go.x := map Grouped.name (df_male grouped);
            go.y := map Grouped.Population (df_male grouped);
            go.name := "Male";
            go.marker_color := COLOR_MALE;
            go.hovertemplate :=
              "<b>%{x}</b><br>" ++ "Males: %{y:,}<br>"
              ++ "Year: " ++ str selected_gender_comp_year ++ "<br>"
              ++ "Age Band: " ++ selected_gender_comp_age_band
              ++ "<extra></extra>" |} ];
     go.layout :=
       grouped_bar_layout
         ("Population by Gender in " ++ str selected_gender_comp_year ++ " "
          ++ age_title_part selected_gender_comp_age_band)
         "Location" "Population" "Gender" selected_gender_comp_locs |}.

(** Lines 236-301: what the gender section hands to [st.plotly_chart]. *)
Definition gender_comparison_chart (df_age_gender_melted : list Melted.row)
  (selected_gender_comp_year : Z) (selected_gender_comp_locs : list string)
  (selected_gender_comp_age_band : string) : go.Figure Z :=
  if match selected_gender_comp_locs with [] => true | _ => false end
     || (selected_gender_comp_year =? 0)
     || String.eqb selected_gender_comp_age_band ""
  then
    create_empty_figure
      "Select year, location(s), and age band for gender comparison."
  else
    let grouped :=
      grouped_df_gender df_age_gender_melted selected_gender_comp_year
        selected_gender_comp_locs selected_gender_comp_age_band in
    match grouped with
    | [] =>
        create_empty_figure
          ("No data for selection in " ++ str selected_gender_comp_year ++ " "
           ++ age_title_part selected_gender_comp_age_band)
    | _ =>
        fig_gender_comp (grouped_df_gender_sorted grouped)
          selected_gender_comp_year selected_gender_comp_locs
          selected_gender_comp_age_band
    end.

(** ** Vocabulary of the statements *)

(** What line 42 makes of one cell of the [age] column. *)
Definition age_value (o : pyobj) : result Z :=
  int64_of_pyobj (if pyobj_eqb o (PyStr "90+") then PyInt 90 else o).

(** The detail row of a raw row whose numeric age is [a]. *)
Definition detail_of (r : Raw.row) (a : Z) : Detail.row :=
  {| Detail.name := Raw.name r;
     Detail.sex := Raw.sex r;
     Detail.age := Raw.age r;
     Detail.population_2011 := Raw.population_2011 r;
     Detail.population_2022 := Raw.population_2022 r;
     Detail.age_numeric := a;
     Detail.age_band := cut bins labels a |}.

(** A raw row and the detail row made of it. *)
Definition detail_rel (r : Raw.row) (d : Detail.row) : Prop :=
  exists a, age_value (Raw.age r) = Ok a /\ d = detail_of r a.

(** The long-form row of a detail row for one year. *)
Definition long_row (year : Z) (value : Detail.row -> Z) (d : Detail.row)
  : Melted.row :=
  {| Melted.name := Detail.name d;
     Melted.sex := Detail.sex d;
     Melted.age := Detail.age d;
     Melted.age_numeric := Detail.age_numeric d;
     Melted.age_band := Detail.age_band d;
     Melted.Population := value d;
     Melted.Year := year |}.

(** The column population_<year>, for the years 2011 and 2022. *)
Definition raw_population (year : Z) (r : Raw.row) : Z :=
  if year =? 2011 then Raw.population_2011 r else Raw.population_2022 r.

Definition detail_population (year : Z) (d : Detail.row) : Z :=
  if year =? 2011 then Detail.population_2011 d else Detail.population_2022 d.

(** The columns [melt] keeps as identifiers. *)
Definition id_vars : Type := string * string * pyobj * Z * option string.

Definition detail_id_vars (d : Detail.row) : id_vars :=
  (Detail.name d, Detail.sex d, Detail.age d, Detail.age_numeric d,
   Detail.age_band d).

Definition melted_id_vars (m : Melted.row) : id_vars :=
  (Melted.name m, Melted.sex m, Melted.age m, Melted.age_numeric m,
   Melted.age_band m).

(** The long-form table in [melt] order, before the sort. *)
Definition long_rows (detail : list Detail.row) : list Melted.row :=
  map (long_row 2011 Detail.population_2011) detail
  ++ map (long_row 2022 Detail.population_2022) detail.

(** The six right-closed intervals of the bin edges, with their labels. *)
Definition intervals : list (edge * edge * string) :=
  combine (combine bins (tl bins)) labels.

Definition in_interval (x : Z) (i : edge * edge * string) : bool :=
  let '(lo, hi, _) := i in edge_ltb lo x && edge_leb x hi.


(** The buckets as the specification words them. *)
Definition spec_buckets : list (edge * edge * string) :=
  [ (Fin (-1), Fin 17, "0-17"); (Fin 17, Fin 24, "18-24");
    (Fin 24, Fin 39, "25-39"); (Fin 39, Fin 59, "40-59");
    (Fin 59, Fin 74, "60-74"); (Fin 74, Inf, "75+") ].

(** Strings in ascending order, strictly. *)
Definition str_lt (s u : string) : Prop := String_as_OT.compare s u = Lt.

(** Ascending in (name, Year, sex, age_numeric), spelled out. *)
Definition melted_key_le (a c : Melted.row) : Prop :=
  str_lt (Melted.name a) (Melted.name c)
  \/ (Melted.name a = Melted.name c
      /\ (Melted.Year a < Melted.Year c
          \/ (Melted.Year a = Melted.Year c
              /\ (str_lt (Melted.sex a) (Melted.sex c)
                  \/ (Melted.sex a = Melted.sex c
                      /\ Melted.age_numeric a <= Melted.age_numeric c))))).

(** The key (name, sex, age) of a record of the raw table. *)
Definition raw_key (r : Raw.row) : string * string * pyobj :=
  (Raw.name r, Raw.sex r, Raw.age r).

Definition detail_key (d : Detail.row) : string * string * pyobj :=
  (Detail.name d, Detail.sex d, Detail.age d).

(** A long-form row and a detail row with the same (name, sex, age). *)
Definition same_key (d : Detail.row) (m : Melted.row) : bool :=
  String.eqb (Melted.name m) (Detail.name d)
  && String.eqb (Melted.sex m) (Detail.sex d)
  && pyobj_eqb (Melted.age m) (Detail.age d).

(** The running sum kept for a key, if the key was met. *)
Definition lookup {K} `{Cmp K} (k : K) (acc : list (K * Z)) : option Z :=
  option_map snd (find (fun e => eqb (fst e) k) acc).

Definition sum_so_far (o : option Z) : Z :=
  match o with
  | Some s => s
  | None => 0
  end.

(** Groups in strictly ascending key order. *)
Definition key_lt {K} `{Cmp K} (a c : K * Z) : Prop := cmp (fst a) (fst c) = Lt.

(** Strictly ascending in (name, sex), spelled out. *)
Definition grouped_key_lt (a c : Grouped.row) : Prop :=
  str_lt (Grouped.name a) (Grouped.name c)
  \/ (Grouped.name a = Grouped.name c
      /\ str_lt (Grouped.sex a) (Grouped.sex c)).

Definition grouped_entry (g : Grouped.row) : string * string * Z :=
  (Grouped.name g, Grouped.sex g, Grouped.Population g).

(** The rows of the grouped table with a given name and sex. *)
Definition rows_of (n s : string) (grouped : list Grouped.row)
  : list Grouped.row :=
  filter (fun g => eqb (grouped_key g) (n, s)) grouped.

(** The exact sum of the running sums whose key satisfies [P]. *)
Definition total {K} (P : K -> bool) (acc : list (K * Z)) : Z :=
  Zsum (map snd (filter (fun e => P (fst e)) acc)).

(** The band test of lines 245-246 on one row. *)
Definition band_selected (selected : string) (age_band : option string) : bool :=
  if negb (String.eqb selected "All Ages") then band_eqb age_band selected
  else true.

(** The detail rows that the group (n, s) of the gender comparison sums. *)
Definition group_members (locs : list string) (band n s : string)
  (d : Detail.row) : bool :=
  isin (Detail.name d) locs
  && band_selected band (Detail.age_band d)
  && eqb (Detail.name d, Detail.sex d) (n, s).

(** The detail rows of Scotland with sex [s] and an age from 0 to 17. *)
Definition scotland_0_17 (s : string) (d : Detail.row) : bool :=
  String.eqb (Detail.name d) "SCOTLAND"
  && String.eqb (Detail.sex d) s
  && (0 <=? Detail.age_numeric d)
  && (Detail.age_numeric d <=? 17).

(** Strings in ascending order. *)
Definition str_le (s u : string) : Prop := str_lt s u \/ s = u.

(** Name, x values and y values of a trace. *)
Definition series {Y} (bar : go.Bar Y) : string * list string * list Y :=
  (go.name bar, go.x bar, go.y bar).

(** ** Sample tables *)

Definition raw_row (n s a : string) (p2011 p2022 : Z) : Raw.row :=
  {| Raw.name := n; Raw.sex := s; Raw.age := PyStr a;
     Raw.population_2011 := p2011; Raw.population_2022 := p2022 |}.

Definition sample_raw : list Raw.row :=
  [ raw_row "WALES" "M" "90+" 5 6;
    raw_row "SCOTLAND" "M" "17" 40 44;
    raw_row "SCOTLAND" "F" "0" 10 12;
    raw_row "SCOTLAND" "F" "17" 20 22;
    raw_row "SCOTLAND" "F" "18" 30 33;
    raw_row "WALES" "F" "3" 7 8 ].

(** A table with a row whose sex is neither F nor M. *)
Definition sample_raw_other_sex : list Raw.row :=
  [ raw_row "WALES" "F" "3" 7 8;
    raw_row "WALES" "U" "3" 1 2;
    raw_row "WALES" "M" "4" 5 6 ].

Definition tables_of (raw : list Raw.row)
  : list Detail.row * list Melted.row :=
  match preprocess_age_gender_data raw with
  | Ok tables => tables
  | Raise _ => ([], [])
  end.

Definition sample_detail : list Detail.row :=
  Eval vm_compute in fst (tables_of sample_raw).

Definition sample_melted : list Melted.row :=
  Eval vm_compute in snd (tables_of sample_raw).

Definition sample_melted_other_sex : list Melted.row :=
  Eval vm_compute in snd (tables_of sample_raw_other_sex).

Definition density_row (c n : string) (a : float) (p2022 : Z) (d2022 : float)
  (p2011 : Z) (d2011 : float) : DensityRaw.row :=
  {| DensityRaw.Code := c; DensityRaw.Name := n;
     DensityRaw.Geography := "Country";
     DensityRaw.Area_sq_km := a;
     DensityRaw.Estimated_Population_mid_2022 := p2022;
     DensityRaw.people_per_sq_km_2022 := d2022;
     DensityRaw.Estimated_Population_mid_2011 := p2011;
     DensityRaw.people_per_sq_km_2011 := d2011 |}.

Definition sample_density_raw : list DensityRaw.row :=
  [ density_row "W92000004" "WALES" 20737%float 3131640 151%float
      3063758 147.75%float;
    density_row "S92000003" "SCOTLAND" 77901%float 5447700 69.5%float
      5299900 68%float;
    density_row "E92000001" "ENGLAND" 130310%float 57106398 438.25%float
      53107169 407.5%float ].


(** ** The options of the widgets (lines 67-74) *)

(** [Series.unique()]: the values in the order of their first appearance;
    [seen] holds the values met so far. *)
Fixpoint unique_from (seen : list string) (l : list string) : list string :=
  match l with
  | [] => []
  | s :: l' =>
      if isin s seen then unique_from seen l'
      else s :: unique_from (s :: seen) l'
  end.

Definition unique (l : list string) : list string := unique_from [] l.

Definition density_locations (df_density : list Density.row) : list string :=
  sorted (unique (map Density.name df_density)).

Definition age_gender_locations (df_age_gender_melted : list Melted.row)
  : list string :=
  sorted (unique (map Melted.name df_age_gender_melted)).

(** A [dict] of strings: the items in insertion order, one per key. *)
Definition dict : Type := list (string * string).

(** [d[k] = v]: the value of an existing key is replaced where it stands, a
    new key goes last. *)
Fixpoint dict_set (k v : string) (d : dict) : dict :=
  match d with
  | [] => [(k, v)]
  | (k', v') :: d' =>
      if String.eqb k' k then (k', v) :: d' else (k', v') :: dict_set k v d'
  end.

(** [d[k]]: [None] is the KeyError. *)
Fixpoint dict_get (k : string) (d : dict) : option string :=
  match d with
  | [] => None
  | (k', v) :: d' => if String.eqb k' k then Some v else dict_get k d'
  end.

Definition dict_keys (d : dict) : list string := map fst d.
Definition dict_values (d : dict) : list string := map snd d.

(** The comprehension of line 71, for any dict: v maps to k, item by item. *)
Definition invert (d : dict) : dict :=
  fold_left (fun acc item => dict_set (snd item) (fst item) acc) d [].

Definition genders_map : dict := [("M", "Male"); ("F", "Female")].
Definition genders_options : dict := invert genders_map.

Definition age_bands_raw : list string :=
  ["0-17"; "18-24"; "25-39"; "40-59"; "60-74"; "75+"].
Definition age_bands_options : list string := "All Ages" :: age_bands_raw.

(** [list.index(x)]: the first position of [x]; [None] is the ValueError. *)
Fixpoint index (x : string) (l : list string) : option nat :=
  match l with
  | [] => None
  | s :: l' => if String.eqb s x then Some 0%nat else option_map S (index x l')
  end.

(** The [index] argument of line 153. *)
Definition default_location_index (options : list string) : option nat :=
  if isin "ENGLAND" options then index "ENGLAND" options else Some 0%nat.

(** ** Section 2: population age distribution (lines 147-208) *)

(** The line chart objects of plotly.graph_objects. *)
Module go_Scatter.

Record Scatter := {
  x : list pyobj;
  y : list Z;
  name : string;
  mode : string;
  marker_color : string;
  line_width : Z;
  hovertemplate : string
}.

Record Layout := {
  title : string;
  xaxis_title : string;
  yaxis_title : string;
  xaxis_type : string;
  hovermode : string;
  legend_title_text : string;
  paper_bgcolor : string;
  plot_bgcolor : string;
  font_family : string;
  font_color : string;
  margin : go.Margin
}.

Record Figure := {
  data : list Scatter;
  layout : Layout
}.

End go_Scatter.

(** What the section hands to [st.plotly_chart]: the placeholder, which has
    no trace, or the line chart. *)
Inductive age_chart :=
| Placeholder (fig : go.Figure Z)
| Lines (fig : go_Scatter.Figure).

(** [sort_values] on the single integer column age_numeric: numpy's
    default sort again, ascending and with no promise on equal keys. *)
Record IntSorter := {
  sort_by_int : forall A : Type, (A -> Z) -> list A -> list A;
  sort_by_int_perm : forall A (key : A -> Z) l,
    Permutation l (sort_by_int key l);
  sort_by_int_sorted : forall A (key : A -> Z) l,
    StronglySorted (fun a c => key a <= key c) (sort_by_int key l)
}.

(** [not value] for what a selectbox returns: no value, or an empty string. *)
Definition falsy (value : option string) : bool :=
  match value with
  | None => true
  | Some s => String.eqb s ""
  end.

Section AgeDistribution.
Variable numpy_sort : IntSorter.

Definition filtered_df_age_detail (df_age_gender_detail : list Detail.row)
  (selected_age_gender_location selected_gender : string) : list Detail.row :=
  sort_by_int numpy_sort Detail.age_numeric
    (filter (fun d => String.eqb (Detail.name d) selected_age_gender_location
                      && String.eqb (Detail.sex d) selected_gender)
       df_age_gender_detail).

Definition fig_age_gender (filtered : list Detail.row)
  (gender_name selected_age_gender_location : string) : go_Scatter.Figure :=
  {| go_Scatter.data :=
       [ {| go_Scatter.x := map Detail.age filtered;
            go_Scatter.y := map Detail.population_2011 filtered;
            go_Scatter.name := "Population 2011";
            go_Scatter.mode := "lines+markers";
            go_Scatter.marker_color := COLOR_SECONDARY;
            go_Scatter.line_width := 2;
            go_Scatter.hovertemplate :=
              "<b>Age: %{x}</b><br>"
              ++ "2011 Population: %{y:,}<extra></extra>" |};
         {| go_Scatter.x := map Detail.age filtered;
            go_Scatter.y := map Detail.population_2022 filtered;
            go_Scatter.name := "Population 2022";
            go_Scatter.mode := "lines+markers";
            go_Scatter.marker_color := COLOR_PRIMARY;
            go_Scatter.line_width := 2;
            go_Scatter.hovertemplate :=
              "<b>Age: %{x}</b><br>"
              ++ "2022 Population: %{y:,}<extra></extra>" |} ];
     go_Scatter.layout :=
       {| go_Scatter.title :=
            gender_name ++ " Population Age Distribution in "
            ++ selected_age_gender_location;
          go_Scatter.xaxis_title := "Age";
          go_Scatter.yaxis_title := "Estimated Population";
          go_Scatter.xaxis_type := "category";
          go_Scatter.hovermode := "x unified";
          go_Scatter.legend_title_text := "Year";
          go_Scatter.paper_bgcolor := COLOR_BG;
          go_Scatter.plot_bgcolor := COLOR_BG;
          go_Scatter.font_family := FONT_FAMILY;
          go_Scatter.font_color := COLOR_TEXT;
          go_Scatter.margin :=
            {| go.l := 40; go.r := 20; go.t := 60; go.b := 40 |} |} |}.

(** Lines 161-208, from the two selectbox values; [None] is a KeyError of
    one of the two dict lookups. *)
Definition age_distribution_chart (df_age_gender_detail : list Detail.row)
  (selected_age_gender_location : option string)
  (selected_gender_display : string) : option age_chart :=
  match dict_get selected_gender_display genders_options with
  | None => None
  | Some selected_gender =>
      if falsy selected_age_gender_location || String.eqb selected_gender ""
      then
        Some (Placeholder
                (create_empty_figure
                   "Please select location and gender for age distribution."))
      else
        let location :=
          match selected_age_gender_location with
          | Some s => s
          | None => ""
          end in
        let filtered :=
          filtered_df_age_detail df_age_gender_detail location selected_gender in
        match dict_get selected_gender genders_map with
        | None => None
        | Some gender_name =>
            match filtered with
            | [] =>
                Some (Placeholder
                        (create_empty_figure
                           ("No data for " ++ location ++ " / " ++ gender_name)))
            | _ => Some (Lines (fig_age_gender filtered gender_name location))
            end
        end
  end.

End AgeDistribution.


(** The population that the grouped table holds for (n, s): 0 without a row. *)
Definition group_population (grouped : list Grouped.row) (n s : string) : Z :=
  Zsum (map Grouped.Population (rows_of n s grouped)).


(** Name, x values and y values of a line trace. *)
Definition scatter_series (trace : go_Scatter.Scatter)
  : string * list pyobj * list Z :=
  (go_Scatter.name trace, go_Scatter.x trace, go_Scatter.y trace).

(** The rows of a location and a sex, in table order. *)
Definition rows_of_location_and_sex (detail : list Detail.row)
  (location gender : string) : list Detail.row :=
  filter (fun d => String.eqb (Detail.name d) location
                   && String.eqb (Detail.sex d) gender) detail.


(** An item with its key and its value exchanged. *)
Definition swap (item : string * string) : string * string :=
  (snd item, fst item).


(** A string made of decimal digits. *)
Fixpoint all_digits (s : string) : bool :=
  match s with
  | String c s' => is_digit c && all_digits s'
  | EmptyString => true
  end.

(** An age label as the census tables have them: the literal 90+, or one
    to eighteen decimal digits. *)
Definition plain_age (o : pyobj) : Prop :=
  o = PyStr "90+"
  \/ exists s, o = PyStr s /\ s <> "" /\ all_digits s = true
               /\ (String.length s <= 18)%nat.

(** ** The age column as text (line 42)

    A column that holds the label 90+ is read as an object column of text:
    its cells are strings, here with ASCII characters, the ones that [int]
    scans byte by byte. *)
Definition text_cell (o : pyobj) : Prop :=
  exists s, o = PyStr s /\ PyLong.is_ascii s = true.

Definition text_column (raw : list Raw.row) : Prop :=
  Forall (fun r => text_cell (Raw.age r)) raw.


(** Tables whose second age is not an integer, and is an integer outside
    int64 (2^63). *)
Definition sample_raw_invalid : list Raw.row :=
  [ raw_row "WALES" "F" "3" 7 8;
    raw_row "WALES" "F" "4.5" 1 2;
    raw_row "WALES" "M" "9223372036854775808" 5 6 ].

Definition sample_raw_overflow : list Raw.row :=
  [ raw_row "WALES" "F" "3" 7 8;
    raw_row "WALES" "M" "9223372036854775808" 5 6;
    raw_row "WALES" "F" "4.5" 1 2 ].

(** * Properties *)

(** ** int64 sums *)

Lemma wrap64_range z : INT64_MIN <= wrap64 z <= INT64_MAX.
Proof.
  unfold wrap64, INT64_MIN, INT64_MAX.
  pose proof (Z.mod_pos_bound (z + 2 ^ 63) (2 ^ 64) ltac:(lia)). lia.
Qed.

Lemma wrap64_fits z : INT64_MIN <= z <= INT64_MAX -> wrap64 z = z.
Proof.
  unfold wrap64, INT64_MIN, INT64_MAX. intros Hz.
  rewrite Z.mod_small; lia.
Qed.

Lemma wrap64_add_l a c : wrap64 (wrap64 a + c) = wrap64 (a + c).
Proof.
  unfold wrap64. f_equal.
  replace ((a + 2 ^ 63) mod 2 ^ 64 - 2 ^ 63 + c + 2 ^ 63)
    with ((a + 2 ^ 63) mod 2 ^ 64 + c) by lia.
  rewrite Zplus_mod_idemp_l. f_equal. lia.
Qed.

Lemma wrap64_add_r a c : wrap64 (a + wrap64 c) = wrap64 (a + c).
Proof. rewrite (Z.add_comm a), wrap64_add_l. f_equal. lia. Qed.

Lemma fold_add64 l a : fold_left add64 l (wrap64 a) = wrap64 (a + Zsum l).
Proof.
  revert a. induction l as [|v l IH]; intros a; simpl.
  - f_equal. lia.
  - change (add64 (wrap64 a) v) with (wrap64 (wrap64 a + v)).
    rewrite IH, <- Z.add_assoc, wrap64_add_l. reflexivity.
Qed.

Lemma sum64_Zsum l : sum64 l = wrap64 (Zsum l).
Proof.
  unfold sum64. change 0 with (wrap64 0) at 1. now rewrite fold_add64.
Qed.

Lemma fold_add64_start l a : fold_left add64 l (add64 0 a) = sum64 (a :: l).
Proof. reflexivity. Qed.

Lemma Zsum_cons a l : Zsum (a :: l) = a + Zsum l.
Proof. reflexivity. Qed.

Lemma Zsum_app l1 l2 : Zsum (l1 ++ l2)%list = Zsum l1 + Zsum l2.
Proof. induction l1; simpl; lia. Qed.

Lemma Zsum_perm l1 l2 : Permutation l1 l2 -> Zsum l1 = Zsum l2.
Proof. induction 1; simpl; lia. Qed.

Lemma sum64_perm l1 l2 : Permutation l1 l2 -> sum64 l1 = sum64 l2.
Proof. intros HP. rewrite !sum64_Zsum. f_equal. now apply Zsum_perm. Qed.

Lemma Zsum_nonneg l : Forall (fun v => 0 <= v) l -> 0 <= Zsum l.
Proof. induction 1; simpl; lia. Qed.

(** ** Lists *)


Lemma Forall2_In_r {A B} (R : A -> B -> Prop) l l' c :
  Forall2 R l l' -> In c l' -> exists a, In a l /\ R a c.
Proof.
  induction 1 as [|x y l l' Hxy Hl IH]; simpl; [tauto|].
  intros [<- | Hin]; [eauto|].
  destruct (IH Hin) as (a & Ha & Hac). eauto.
Qed.

Lemma StronglySorted_impl {A} (R S : A -> A -> Prop) l :
  (forall a c, R a c -> S a c) -> StronglySorted R l -> StronglySorted S l.
Proof.
  intros HRS. induction 1 as [|a l Hl IH Ha]; constructor; [assumption|].
  eapply Forall_impl; [|exact Ha]. intros c. apply HRS.
Qed.

Lemma StronglySorted_nth {A} (R : A -> A -> Prop) l i j a c :
  StronglySorted R l -> (i < j)%nat ->
  nth_error l i = Some a -> nth_error l j = Some c -> R a c.
Proof.
  intros Hl. revert i j. induction Hl as [|x l Hl IH Hx]; intros i j Hij Hi Hj.
  - now destruct i.
  - destruct j as [|j]; [lia|]. simpl in Hj.
    destruct i as [|i]; simpl in Hi.
    + injection Hi as ->. rewrite Forall_forall in Hx.
      apply Hx. eapply nth_error_In; eassumption.
    + apply (IH i j); [lia | exact Hi | exact Hj].
Qed.

Lemma filter_map_comm {A B} (p : B -> bool) (f : A -> B) l :
  filter p (map f l) = map f (filter (fun a => p (f a)) l).
Proof.
  induction l as [|a l IH]; simpl; [reflexivity|].
  destruct (p (f a)); simpl; now rewrite IH.
Qed.

Lemma filter_none {A} (p : A -> bool) l :
  (forall a, In a l -> p a = false) -> filter p l = [].
Proof.
  induction l as [|a l IH]; intros Hp; simpl; [reflexivity|].
  rewrite (Hp a) by now left. apply IH. intros; apply Hp. now right.
Qed.

Lemma filter_unique_key {A K} (f : A -> K) (p : A -> bool) l d :
  NoDup (map f l) -> In d l ->
  (forall a, p a = true <-> f a = f d) ->
  filter p l = [d].
Proof.
  intros Hnd Hin Hp. induction l as [|a l IH]; simpl in *; [tauto|].
  inversion Hnd as [|? ? Hnotin Hnd']; subst.
  destruct Hin as [-> | Hin].
  - rewrite (proj2 (Hp d) eq_refl). f_equal.
    apply filter_none. intros a Ha.
    destruct (p a) eqn:Hpa; [|reflexivity].
    apply Hp in Hpa. exfalso. apply Hnotin. rewrite <- Hpa. now apply in_map.
  - destruct (p a) eqn:Hpa.
    + apply Hp in Hpa. exfalso. apply Hnotin.
      rewrite Hpa. now apply in_map.
    + now apply IH.
Qed.

(** ** The error monad *)

Lemma bind_Ok {A B} (m : result A) (k : A -> result B) b :
  bind m k = Ok b -> exists a, m = Ok a /\ k a = Ok b.
Proof. destruct m; simpl; [eauto | discriminate]. Qed.

Lemma mapM_Ok_Forall2 {A B} (f : A -> result B) l bs :
  mapM f l = Ok bs <-> Forall2 (fun a b => f a = Ok b) l bs.
Proof.
  revert bs. induction l as [|a l IH]; intros bs; simpl.
  - split.
    + intros [= <-]. constructor.
    + inversion 1. reflexivity.
  - split.
    + intros H. apply bind_Ok in H as (b & Hb & H).
      apply bind_Ok in H as (bs' & Hbs & [= <-]).
      constructor; [assumption | now apply IH].
    + inversion 1 as [|? b ? bs' Hb Hbs]; subst.
      rewrite Hb. simpl. apply IH in Hbs. now rewrite Hbs.
Qed.

Lemma mapM_total {A B} (f : A -> result B) (g : A -> B) l :
  (forall a, In a l -> f a = Ok (g a)) -> mapM f l = Ok (map g l).
Proof.
  induction l as [|a l IH]; intros H; simpl; [reflexivity|].
  rewrite (H a) by now left. simpl.
  rewrite IH by (intros; apply H; now right). reflexivity.
Qed.

(** The first failing element decides the exception. *)
Lemma mapM_Raise {A B} (f : A -> result B) l e :
  mapM f l = Raise e <->
  exists pre a post, l = (pre ++ a :: post)%list
    /\ Forall (fun a' => exists b, f a' = Ok b) pre /\ f a = Raise e.
Proof.
  induction l as [|a l IH]; simpl.
  - split; [discriminate|].
    intros (pre & a & post & H & _). now destruct pre.
  - split.
    + intros H. destruct (f a) as [b|e'] eqn:Ha; simpl in H.
      * destruct (mapM f l) as [bs|e''] eqn:Hl; simpl in H; [discriminate|].
        injection H as ->.
        destruct IH as [IH _].
        destruct (IH eq_refl) as (pre & a' & post & -> & Hpre & Ha').
        exists (a :: pre), a', post. repeat split; eauto.
      * injection H as ->. exists [], a, l. repeat split; auto.
    + intros (pre & a' & post & H & Hpre & Ha').
      destruct pre as [|p pre]; simpl in H; injection H as <- ->.
      * rewrite Ha'. reflexivity.
      * inversion Hpre as [|? ? [b Hb] Hpre']; subst.
        rewrite Hb. simpl.
        destruct IH as [_ IH]. rewrite IH; [reflexivity|].
        exists pre, a', post. auto.
Qed.

(** ** Keys are totally ordered *)

Class CmpLaws (K : Type) `{Cmp K} : Prop := {
  cmp_eq : forall x y : K, cmp x y = Eq <-> x = y;
  cmp_antisym : forall x y : K, cmp y x = CompOpp (cmp x y);
  cmp_lt_trans : forall x y z : K, cmp x y = Lt -> cmp y z = Lt -> cmp x z = Lt
}.
Arguments CmpLaws K {_}.

#[export] Instance CmpLaws_Z : CmpLaws Z.
Proof.
  split; unfold cmp, Cmp_Z.
  - apply Z.compare_eq_iff.
  - intros x y. apply Z.compare_antisym.
  - intros x y z. rewrite !Z.compare_lt_iff. lia.
Qed.

#[export] Instance CmpLaws_string : CmpLaws string.
Proof.
  assert (Hirr : forall s, String_as_OT.compare s s <> Lt).
  { intros s Hs. exact (StrictOrder_Irreflexive (R := String_as_OT.lt) s Hs). }
  assert (Htr : forall x y z, String_as_OT.compare x y = Lt ->
                String_as_OT.compare y z = Lt -> String_as_OT.compare x z = Lt).
  { intros x y z. exact (StrictOrder_Transitive (R := String_as_OT.lt) x y z). }
  split; unfold cmp, Cmp_string.
  - intros x y. split.
    + intros Hc. destruct (String_as_OT.compare_spec x y); congruence.
    + intros ->. destruct (String_as_OT.compare_spec y y) as [| Hlt | Hlt];
        [reflexivity | |]; now apply Hirr in Hlt.
  - intros x y.
    destruct (String_as_OT.compare_spec x y) as [Heq | Hxy | Hyx];
      destruct (String_as_OT.compare_spec y x) as [Heq' | Hyx' | Hxy'];
      simpl; try reflexivity; exfalso;
      unfold String_as_OT.eq, String_as_OT.lt in *; subst;
      first [ eapply Hirr; eassumption
            | eapply Hirr; eapply Htr; eassumption ].
  - exact Htr.
Qed.

#[export] Instance CmpLaws_prod {A B} `{CmpLaws A} `{CmpLaws B} : CmpLaws (A * B).
Proof.
  split; unfold cmp, Cmp_prod.
  - intros [a1 b1] [a2 b2]; simpl. split.
    + destruct (cmp a1 a2) eqn:Ha; try discriminate.
      intros Hb. apply cmp_eq in Ha, Hb. congruence.
    + intros [= -> ->].
      rewrite (proj2 (cmp_eq a2 a2) eq_refl). now apply cmp_eq.
  - intros [a1 b1] [a2 b2]; simpl.
    rewrite (cmp_antisym a1 a2).
    destruct (cmp a1 a2); simpl; try reflexivity. apply cmp_antisym.
  - intros [a1 b1] [a2 b2] [a3 b3]; simpl.
    destruct (cmp a1 a2) eqn:H12; try discriminate.
    + apply cmp_eq in H12 as ->. intros Hb12.
      destruct (cmp a2 a3) eqn:H23; try discriminate; auto.
      intros Hb23. eapply cmp_lt_trans; eassumption.
    + intros _. destruct (cmp a2 a3) eqn:H23; try discriminate.
      * apply cmp_eq in H23 as <-. now rewrite H12.
      * now rewrite (cmp_lt_trans _ _ _ H12 H23).
Qed.

Section KeyOrder.
Context {K : Type} `{CmpLaws K}.

Lemma cmp_refl (x : K) : cmp x x = Eq.
Proof. now apply cmp_eq. Qed.

Lemma cmp_Gt_Lt (x y : K) : cmp x y = Gt <-> cmp y x = Lt.
Proof. rewrite (cmp_antisym x y). destruct (cmp x y); simpl; split; congruence. Qed.

Lemma eqb_eq (x y : K) : eqb x y = true <-> x = y.
Proof.
  unfold eqb. rewrite <- cmp_eq. destruct (cmp x y); split; congruence.
Qed.

Lemma eqb_refl (x : K) : eqb x x = true.
Proof. now apply eqb_eq. Qed.

Lemma eqb_neq (x y : K) : eqb x y = false <-> x <> y.
Proof.
  rewrite <- eqb_eq. destruct (eqb x y); split; congruence.
Qed.

Lemma leb_refl (x : K) : leb x x = true.
Proof. unfold leb. now rewrite cmp_refl. Qed.

Lemma leb_false (x y : K) : leb x y = false <-> cmp y x = Lt.
Proof.
  unfold leb. rewrite <- cmp_Gt_Lt. destruct (cmp x y); split; congruence.
Qed.

Lemma leb_true (x y : K) : leb x y = true <-> cmp x y = Lt \/ x = y.
Proof.
  unfold leb. rewrite <- cmp_eq.
  destruct (cmp x y); split; try congruence; intuition congruence.
Qed.

Lemma leb_total (x y : K) : leb x y = true \/ leb y x = true.
Proof.
  destruct (leb x y) eqn:Hxy; [now left | right].
  apply leb_false in Hxy. apply leb_true. now left.
Qed.

Lemma leb_trans (x y z : K) : leb x y = true -> leb y z = true -> leb x z = true.
Proof.
  rewrite !leb_true. intros [Hxy | ->] [Hyz | ->]; auto.
  left. eapply cmp_lt_trans; eassumption.
Qed.

Lemma leb_antisym (x y : K) : leb x y = true -> leb y x = true -> x = y.
Proof.
  rewrite !leb_true. intros [Hxy | ->] [Hyx | Heq]; auto.
  pose proof (cmp_lt_trans _ _ _ Hxy Hyx) as Hxx.
  rewrite cmp_refl in Hxx. discriminate.
Qed.

Lemma cmp_lt_irrefl (x : K) : cmp x x <> Lt.
Proof. rewrite cmp_refl. discriminate. Qed.

End KeyOrder.

(** ** The stable sort *)

Section SortingFacts.
Context {A K : Type} `{CmpLaws K} (key : A -> K).

Definition key_le (a c : A) : Prop := leb (key a) (key c) = true.

Lemma insert_row_perm x l : Permutation (x :: l) (insert_row key x l).
Proof.
  induction l as [|y l IH]; simpl; [reflexivity|].
  destruct (leb (key x) (key y)); [reflexivity|].
  rewrite perm_swap. now constructor.
Qed.

Lemma sort_values_perm l : Permutation l (sort_values key l).
Proof.
  induction l as [|x l IH]; simpl; [constructor|].
  unfold sort_values in *. simpl.
  rewrite <- insert_row_perm. now constructor.
Qed.

Lemma insert_row_sorted x l :
  StronglySorted key_le l -> StronglySorted key_le (insert_row key x l).
Proof.
  induction 1 as [|y l Hl IH Hy]; simpl.
  - repeat constructor.
  - destruct (leb (key x) (key y)) eqn:Hxy.
    + constructor; [now constructor|].
      constructor; [assumption|].
      eapply Forall_impl; [|exact Hy].
      intros c Hc. unfold key_le in *. eapply leb_trans; eassumption.
    + constructor; [assumption|].
      assert (Hyx : key_le y x).
      { unfold key_le. destruct (leb_total (key x) (key y)); congruence. }
      eapply Permutation_Forall; [apply insert_row_perm|].
      now constructor.
Qed.

Lemma sort_values_sorted l : StronglySorted key_le (sort_values key l).
Proof.
  induction l as [|x l IH]; [constructor|].
  unfold sort_values in *. simpl. now apply insert_row_sorted.
Qed.

(** Rows with one key keep their order: the sort is stable. *)
Lemma insert_row_filter_key k x l :
  filter (fun a => eqb (key a) k) (insert_row key x l)
  = filter (fun a => eqb (key a) k) (x :: l).
Proof.
  induction l as [|y l IH]; [reflexivity|].
  cbn [insert_row]. destruct (leb (key x) (key y)) eqn:Hxy; [reflexivity|].
  cbn [filter] in *. rewrite IH.
  destruct (eqb (key x) k) eqn:Hx, (eqb (key y) k) eqn:Hy; try reflexivity.
  apply eqb_eq in Hx, Hy. rewrite Hx, Hy, leb_refl in Hxy. discriminate.
Qed.

Lemma sort_values_stable k l :
  filter (fun a => eqb (key a) k) (sort_values key l)
  = filter (fun a => eqb (key a) k) l.
Proof.
  induction l as [|x l IH]; [reflexivity|].
  unfold sort_values in *. cbn [fold_right].
  rewrite insert_row_filter_key. cbn [filter]. now rewrite IH.
Qed.

(** Sorting commutes with any filter. *)
Lemma insert_row_filter (p : A -> bool) x l :
  StronglySorted key_le l ->
  filter p (insert_row key x l)
  = if p x then insert_row key x (filter p l) else filter p l.
Proof.
  induction 1 as [|y l Hl IH Hy]; cbn [insert_row filter].
  - now destruct (p x).
  - destruct (leb (key x) (key y)) eqn:Hxy; cbn [filter].
    + destruct (p x) eqn:Hpx; [|reflexivity].
      destruct (p y) eqn:Hpy.
      * cbn [insert_row]. now rewrite Hxy.
      * f_equal.
        assert (Hall : Forall (fun c => leb (key x) (key c) = true) (filter p l)).
        { apply Forall_forall. intros c Hc. apply filter_In in Hc as [Hc _].
          rewrite Forall_forall in Hy. eapply leb_trans; [exact Hxy|].
          now apply Hy. }
        destruct (filter p l) as [|c fl]; [reflexivity|].
        cbn [insert_row]. inversion Hall as [|? ? Hc ?]; subst. now rewrite Hc.
    + rewrite IH. destruct (p x), (p y); cbn [insert_row]; try reflexivity.
      now rewrite Hxy.
Qed.

Lemma sort_values_filter (p : A -> bool) l :
  filter p (sort_values key l) = sort_values key (filter p l).
Proof.
  induction l as [|x l IH]; [reflexivity|].
  unfold sort_values in *. cbn [fold_right filter].
  rewrite insert_row_filter by apply sort_values_sorted.
  destruct (p x); cbn [fold_right]; now rewrite IH.
Qed.

Lemma sort_values_sorted_id l : StronglySorted key_le l -> sort_values key l = l.
Proof.
  induction 1 as [|x l Hl IH Hx]; [reflexivity|].
  unfold sort_values in *. cbn [fold_right]. rewrite IH.
  destruct l as [|y l]; [reflexivity|].
  cbn [insert_row]. inversion Hx as [|? ? Hxy ?]; subst.
  unfold key_le in Hxy. now rewrite Hxy.
Qed.

End SortingFacts.

(** ** What the age/gender preprocessor returns *)

Lemma mapM_app {A B} (f : A -> result B) l1 l2 :
  mapM f (l1 ++ l2) =
  (a <- mapM f l1 ;; c <- mapM f l2 ;; Ok (a ++ c)%list).
Proof.
  induction l1 as [|x l1 IH]; simpl.
  - now destruct (mapM f l2).
  - destruct (f x); simpl; [|reflexivity].
    rewrite IH. destruct (mapM f l1); simpl; [|reflexivity].
    now destruct (mapM f l2).
Qed.

Lemma mapM_map {A B C} (f : B -> result C) (h : A -> B) (g : A -> C) l :
  (forall a, f (h a) = Ok (g a)) -> mapM f (map h l) = Ok (map g l).
Proof.
  intros Hf. induction l as [|a l IH]; simpl; [reflexivity|].
  now rewrite Hf, IH.
Qed.

(** The year extracted from the two column names: it never fails. *)
Lemma melted_unsorted_long_rows detail :
  melted_unsorted detail = Ok (long_rows detail).
Proof.
  unfold melted_unsorted, melt, long_rows. rewrite mapM_app.
  rewrite (mapM_map with_Year _ (long_row 2011 Detail.population_2011))
    by reflexivity.
  rewrite (mapM_map with_Year _ (long_row 2022 Detail.population_2022))
    by reflexivity.
  reflexivity.
Qed.

Lemma assign_detail raw :
  forall ages,
    Forall2 (fun o a => int64_of_pyobj o = Ok a)
      (replace (PyStr "90+") (PyInt 90) (map Raw.age raw)) ages ->
    Forall2 detail_rel raw (assign raw ages (map (cut bins labels) ages)).
Proof.
  induction raw as [|r raw IH]; intros ages Hall; simpl in *.
  - constructor.
  - inversion Hall as [|o a os ages' Ha Hrest]; subst. simpl.
    constructor; [|now apply IH].
    exists a. split; [exact Ha | reflexivity].
Qed.

Lemma preprocess_Ok raw detail melted :
  preprocess_age_gender_data raw = Ok (detail, melted) ->
  Forall2 detail_rel raw detail
  /\ melted = sort_values melted_key (long_rows detail).
Proof.
  unfold preprocess_age_gender_data. intros Hp.
  apply bind_Ok in Hp as (ages & Hages & Hp).
  rewrite melted_unsorted_long_rows in Hp. simpl in Hp.
  injection Hp as <- <-.
  apply mapM_Ok_Forall2 in Hages.
  split; [now apply assign_detail | reflexivity].
Qed.

Lemma preprocess_Raise raw e :
  preprocess_age_gender_data raw = Raise e <->
  exists pre r post, raw = (pre ++ r :: post)%list
    /\ Forall (fun r' => exists a, age_value (Raw.age r') = Ok a) pre
    /\ age_value (Raw.age r) = Raise e.
Proof.
  unfold preprocess_age_gender_data, astype_int, replace.
  rewrite map_map.
  set (f := fun r : Raw.row => age_value (Raw.age r)).
  assert (Hm : forall l, mapM int64_of_pyobj
      (map (fun x => if pyobj_eqb (Raw.age x) (PyStr "90+") then PyInt 90
                     else Raw.age x) l) = mapM f l).
  { induction l as [|x l IH]; simpl; [reflexivity|]. now rewrite IH. }
  rewrite Hm. etransitivity; [|apply (mapM_Raise f raw e)].
  destruct (mapM f raw) as [ages|e']; simpl.
  - rewrite melted_unsorted_long_rows. simpl. split; discriminate.
  - split; intros [= ->]; reflexivity.
Qed.

Lemma detail_rel_fields r d :
  detail_rel r d ->
  Detail.name d = Raw.name r /\ Detail.sex d = Raw.sex r
  /\ Detail.age d = Raw.age r
  /\ Detail.population_2011 d = Raw.population_2011 r
  /\ Detail.population_2022 d = Raw.population_2022 r
  /\ age_value (Raw.age r) = Ok (Detail.age_numeric d)
  /\ Detail.age_band d = cut bins labels (Detail.age_numeric d).
Proof. intros (a & Ha & ->). simpl. auto 10. Qed.

(** ** Numeric age (line 42) *)

Lemma pyobj_eqb_eq a c : pyobj_eqb a c = true <-> a = c.
Proof.
  destruct a as [s|x], c as [t|z]; simpl; split; try discriminate.
  - intros Hs. apply String.eqb_eq in Hs. congruence.
  - intros [= ->]. apply String.eqb_refl.
  - intros Hx. apply Z.eqb_eq in Hx. congruence.
  - intros [= ->]. apply Z.eqb_refl.
Qed.

Lemma pyobj_eqb_neq a c : pyobj_eqb a c = false <-> a <> c.
Proof.
  rewrite <- pyobj_eqb_eq. destruct (pyobj_eqb a c); split; congruence.
Qed.


Lemma age_value_unparseable o :
  o <> PyStr "90+" -> py_int o = None -> age_value o = Raise ValueError.
Proof.
  intros Hne Hp. apply pyobj_eqb_neq in Hne.
  unfold age_value, int64_of_pyobj. now rewrite Hne, Hp.
Qed.

Lemma preprocess_total raw :
  Forall (fun r => exists a, age_value (Raw.age r) = Ok a) raw ->
  exists detail melted, preprocess_age_gender_data raw = Ok (detail, melted).
Proof.
  intros Hall.
  destruct (preprocess_age_gender_data raw) as [[detail melted]|e] eqn:Hp;
    [eauto|].
  apply preprocess_Raise in Hp as (pre & r & post & -> & _ & Hr).
  rewrite Forall_forall in Hall.
  destruct (Hall r) as [a Ha]; [apply in_or_app; right; now left|].
  congruence.
Qed.







(** The two failures of line 42 on text: the first age that does not
    convert decides the exception. *)
Example sample_invalid_age :
  text_column sample_raw_invalid
  /\ preprocess_age_gender_data sample_raw_invalid = Raise ValueError.
Proof.
  split; [|vm_compute; reflexivity].
  unfold text_column, sample_raw_invalid, raw_row.
  repeat (apply Forall_cons;
          [cbn [Raw.age]; eexists; split; [reflexivity|];
           vm_compute; reflexivity|]).
  apply Forall_nil.
Qed.

Example sample_overflow_age :
  text_column sample_raw_overflow
  /\ preprocess_age_gender_data sample_raw_overflow = Raise OverflowError.
Proof.
  split; [|vm_compute; reflexivity].
  unfold text_column, sample_raw_overflow, raw_row.
  repeat (apply Forall_cons;
          [cbn [Raw.age]; eexists; split; [reflexivity|];
           vm_compute; reflexivity|]).
  apply Forall_nil.
Qed.


(** ** Age bands (lines 44-49) *)

Ltac case_ltb :=
  match goal with
  | |- context [?a <? ?c] => destruct (Z.ltb_spec a c)
  | H : context [?a <? ?c] |- _ => destruct (Z.ltb_spec a c)
  end.

Lemma cut_negative x : x < 0 -> cut bins labels x = None.
Proof.
  intros Hx. unfold cut, bins. cbn [searchsorted_left edge_ltb].
  case_ltb; [lia | reflexivity].
Qed.

Lemma in_interval_unique x i j :
  In i intervals -> In j intervals ->
  in_interval x i = true -> in_interval x j = true -> i = j.
Proof.
  unfold intervals. cbn [bins labels tl combine In].
  intros Hi Hj.
  repeat (destruct Hi as [<- | Hi]); try contradiction;
    repeat (destruct Hj as [<- | Hj]); try contradiction;
    try reflexivity;
    cbn [in_interval edge_ltb edge_leb negb andb];
    unfold edge_leb; cbn [edge_ltb];
    intros H1 H2; exfalso;
    repeat case_ltb; cbn in *; try discriminate; lia.
Qed.

Ltac solve_band lo hi band :=
  exists lo, hi, band; split; [|split];
  [ unfold cut, bins; cbn [searchsorted_left edge_ltb];
    repeat case_ltb; try lia; reflexivity
  | unfold intervals; cbn; auto 10
  | unfold in_interval, edge_leb; cbn [edge_ltb];
    repeat case_ltb; try lia; reflexivity ].

Lemma cut_in_interval x :
  0 <= x ->
  exists lo hi band,
    cut bins labels x = Some band
    /\ In (lo, hi, band) intervals
    /\ in_interval x (lo, hi, band) = true.
Proof.
  intros Hx.
  assert (Hcases : x <= 17 \/ 17 < x <= 24 \/ 24 < x <= 39 \/ 39 < x <= 59
                   \/ 59 < x <= 74 \/ 74 < x) by lia.
  destruct Hcases as [Hc | [Hc | [Hc | [Hc | [Hc | Hc]]]]].
  - solve_band (Fin (-1)) (Fin 17) "0-17".
  - solve_band (Fin 17) (Fin 24) "18-24".
  - solve_band (Fin 24) (Fin 39) "25-39".
  - solve_band (Fin 39) (Fin 59) "40-59".
  - solve_band (Fin 59) (Fin 74) "60-74".
  - solve_band (Fin 74) Inf "75+".
Qed.

(** C2, as amended: every age above -1, so every non-negative age, gets the
    band of the one right-closed interval that holds it (17 is 0-17, 18 is
    18-24, 90 is 75+); the band of a detail row is that of its numeric age,
    and a negative numeric age, which the parser lets through, gets none. *)
Theorem age_band_of_non_negative_age :
  intervals = spec_buckets
  /\ (forall x,
      0 <= x ->
      exists lo hi band,
        cut bins labels x = Some band
        /\ In band labels
        /\ In (lo, hi, band) intervals
        /\ in_interval x (lo, hi, band) = true
        /\ forall i, In i intervals -> in_interval x i = true ->
                     i = (lo, hi, band))
  /\ (forall raw detail melted d,
         preprocess_age_gender_data raw = Ok (detail, melted) ->
         In d detail ->
         Detail.age_band d = cut bins labels (Detail.age_numeric d))
  /\ (forall x, x < 0 -> cut bins labels x = None)
  /\ cut bins labels 17 = Some "0-17"
  /\ cut bins labels 18 = Some "18-24"
  /\ cut bins labels 90 = Some "75+".
Proof.
  split; [reflexivity|].
  split; [|split; [|split; [|repeat split]]].
  - intros x Hx.
    destruct (cut_in_interval Hx) as (lo & hi & band & Hcut & Hin & Hx').
    exists lo, hi, band. repeat split; try assumption.
    + unfold intervals in Hin. apply in_combine_r in Hin. exact Hin.
    + intros i Hi Hxi. eapply in_interval_unique; eassumption.
  - intros raw detail melted d Hp Hd.
    apply preprocess_Ok in Hp as [Hall _].
    destruct (Forall2_In_r d Hall Hd) as (r & _ & a & _ & ->). reflexivity.
  - apply cut_negative.
Qed.

(** C2, as stated, fails: a row whose age is -1 is a detail row, and it has
    no band. *)
Lemma negative_age_has_no_band :
  ~ (forall raw detail melted d,
        preprocess_age_gender_data raw = Ok (detail, melted) ->
        In d detail ->
        exists band, In band labels /\ Detail.age_band d = Some band).
Proof.
  intros Hclaim.
  pose (r := {| Raw.name := "WALES"; Raw.sex := "F"; Raw.age := PyStr "-1";
                Raw.population_2011 := 3; Raw.population_2022 := 4 |}).
  destruct (preprocess_age_gender_data [r]) as [[detail melted]|e] eqn:Hp;
    vm_compute in Hp; [|discriminate].
  injection Hp as <- <-.
  destruct (Hclaim [r] _ _ (detail_of r (-1)) eq_refl (or_introl eq_refl))
    as (band & _ & Hband).
  discriminate.
Qed.

(** ** The order of the long-form table (line 59) *)

Lemma string_cmp_refl (s : string) : String_as_OT.compare s s = Eq.
Proof. exact (cmp_refl s). Qed.

Lemma string_cmp_eq (s u : string) : String_as_OT.compare s u = Eq -> s = u.
Proof. exact (proj1 (cmp_eq s u)). Qed.

Lemma melted_key_le_iff a c :
  key_le melted_key a c <-> melted_key_le a c.
Proof.
  unfold key_le, melted_key_le, str_lt.
  cbv [leb melted_key cmp Cmp_prod Cmp_string Cmp_Z fst snd].
  destruct (String_as_OT.compare (Melted.name a) (Melted.name c)) eqn:Hn.
  - apply string_cmp_eq in Hn.
    destruct (Z.compare_spec (Melted.Year a) (Melted.Year c)) as [Hy|Hy|Hy].
    + destruct (String_as_OT.compare (Melted.sex a) (Melted.sex c)) eqn:Hs.
      * apply string_cmp_eq in Hs.
        destruct (Z.compare_spec (Melted.age_numeric a) (Melted.age_numeric c));
          split; intros Hle; try discriminate; try reflexivity;
          try (right; split; [assumption|]; right; split; [assumption|];
               right; split; [assumption|]; lia).
        destruct Hle as [? | (_ & [? | (_ & [? | (_ & ?)])])];
          try discriminate; lia.
      * split; [|reflexivity]. intros _. right. split; [assumption|].
        right. split; [assumption|]. now left.
      * split; [discriminate|].
        intros [? | (_ & [? | (_ & [? | (Hs' & _)])])];
          try discriminate; try lia.
        rewrite Hs', string_cmp_refl in Hs. discriminate.
    + split; [|reflexivity]. intros _. right. split; [assumption|]. now left.
    + split; [discriminate|].
      intros [? | (_ & [? | (? & _)])]; try discriminate; lia.
  - split; [|reflexivity]. intros _. now left.
  - split; [discriminate|].
    intros [? | (Hn' & _)]; [discriminate|].
    rewrite Hn', string_cmp_refl in Hn. discriminate.
Qed.

(** C7: the long-form table is in ascending order of (name, Year, sex,
    age_numeric), it holds the rows of the melt, and the rows that agree on
    the four keys stand in the order the melt gave them. *)
Theorem long_form_sorted_stable raw detail melted :
  preprocess_age_gender_data raw = Ok (detail, melted) ->
  StronglySorted melted_key_le melted
  /\ melted_unsorted detail = Ok (long_rows detail)
  /\ Permutation (long_rows detail) melted
  /\ forall k,
       filter (fun m => eqb (melted_key m) k) melted
       = filter (fun m => eqb (melted_key m) k) (long_rows detail).
Proof.
  intros Hp. apply preprocess_Ok in Hp as [_ ->].
  split; [|split; [|split]].
  - eapply StronglySorted_impl; [|apply (sort_values_sorted melted_key)].
    intros a c. apply melted_key_le_iff.
  - apply melted_unsorted_long_rows.
  - apply sort_values_perm.
  - intros k. apply sort_values_stable.
Qed.

(** ** Unpivoting (lines 51-58) *)

Lemma detail_keys_of_raw raw detail :
  Forall2 detail_rel raw detail -> map detail_key detail = map raw_key raw.
Proof.
  induction 1 as [|r d raw detail (a & _ & ->) _ IH]; simpl; [reflexivity|].
  now rewrite IH.
Qed.

Lemma same_key_iff d d' year value :
  same_key d (long_row year value d') = true <-> detail_key d' = detail_key d.
Proof.
  unfold same_key, detail_key. cbn [long_row Melted.name Melted.sex Melted.age].
  rewrite !andb_true_iff, !String.eqb_eq, pyobj_eqb_eq.
  split; [intros [[-> ->] ->]; reflexivity | intros [= -> -> ->]; auto].
Qed.

Lemma sort_pair_of_years d :
  sort_values melted_key
    [long_row 2011 Detail.population_2011 d;
     long_row 2022 Detail.population_2022 d]
  = [long_row 2011 Detail.population_2011 d;
     long_row 2022 Detail.population_2022 d].
Proof.
  apply sort_values_sorted_id.
  repeat constructor. apply melted_key_le_iff.
  right. split; [reflexivity|]. left. simpl. lia.
Qed.

(** C3: the long-form rows are the 2011 and the 2022 image of the detail
    rows, with the identifier fields kept; when the raw table holds one
    record per (name, sex, age), the long-form rows of a detail row's key
    are exactly its two images, the 2011 one first. *)
Theorem unpivot_is_lossless raw detail melted :
  preprocess_age_gender_data raw = Ok (detail, melted) ->
  (forall m,
      In m melted <->
      exists d, In d detail
                /\ (m = long_row 2011 Detail.population_2011 d
                    \/ m = long_row 2022 Detail.population_2022 d))
  /\ (NoDup (map raw_key raw) ->
      forall d,
        In d detail ->
        filter (same_key d) melted
        = [long_row 2011 Detail.population_2011 d;
           long_row 2022 Detail.population_2022 d]).
Proof.
  intros Hp. apply preprocess_Ok in Hp as [Hd ->]. split.
  - intros m. split.
    + intros Hm.
      apply (Permutation_in _ (Permutation_sym (sort_values_perm melted_key _)))
        in Hm.
      unfold long_rows in Hm. apply in_app_or in Hm as [Hm | Hm];
        apply in_map_iff in Hm as (d & <- & Hin); eauto.
    + intros (d & Hin & Hm).
      apply (Permutation_in _ (sort_values_perm melted_key _)).
      unfold long_rows. apply in_or_app.
      destruct Hm as [-> | ->]; [left | right]; now apply in_map.
  - intros Hnd d Hin.
    rewrite sort_values_filter. unfold long_rows.
    rewrite filter_app, !filter_map_comm.
    rewrite <- (detail_keys_of_raw Hd) in Hnd.
    assert (Hone : forall year value,
               filter (fun d' => same_key d (long_row year value d')) detail
               = [d]).
    { intros year value. apply (@filter_unique_key _ _ detail_key);
        [assumption | assumption | intros d'; apply same_key_iff]. }
    rewrite !Hone. apply sort_pair_of_years.
Qed.

(** ** Group-by and sum *)

Section GroupBy.
Context {K : Type} `{CmpLaws K}.

Lemma group_add_In k v acc e :
  In e (group_add k v acc) -> fst e = k \/ exists e', In e' acc /\ fst e' = fst e.
Proof.
  induction acc as [|[k0 s0] acc IH]; simpl.
  - intros [<- | []]. now left.
  - destruct (cmp k k0) eqn:Hk; simpl.
    + apply cmp_eq in Hk as ->. intros [<- | Hin]; [now left|].
      right. exists e. auto.
    + intros [<- | [<- | Hin]]; [now left | |]; right; eauto.
    + intros [<- | Hin]; [right; eauto|].
      destruct (IH Hin) as [-> | (e' & He' & Hfst)]; [now left|].
      right. eauto.
Qed.

Lemma group_add_sorted k v acc :
  StronglySorted key_lt acc -> StronglySorted key_lt (group_add k v acc).
Proof.
  induction 1 as [|[k0 s0] acc Hacc IH Hk0]; simpl.
  - repeat constructor.
  - destruct (cmp k k0) eqn:Hk.
    + constructor; assumption.
    + constructor; [now constructor|].
      constructor; [exact Hk|].
      eapply Forall_impl; [|exact Hk0].
      intros e He. unfold key_lt in *. simpl in *.
      eapply cmp_lt_trans; eassumption.
    + constructor; [assumption|].
      apply Forall_forall. intros e He.
      destruct (group_add_In _ _ _ _ He) as [Hek | (e' & He' & Hfst)].
      * unfold key_lt. simpl. rewrite Hek. now apply cmp_Gt_Lt.
      * rewrite Forall_forall in Hk0. unfold key_lt in *.
        rewrite <- Hfst. now apply Hk0.
Qed.

Lemma lookup_below k acc :
  Forall (fun e => cmp k (fst e) = Lt) acc -> lookup k acc = None.
Proof.
  unfold lookup. induction 1 as [|e acc He Hacc IH]; [reflexivity|].
  cbn [find].
  assert (Hne : eqb (fst e) k = false).
  { unfold eqb. now rewrite (cmp_antisym k (fst e)), He. }
  rewrite Hne. exact IH.
Qed.

Lemma lookup_cons k k0 s0 acc :
  lookup k ((k0, s0) :: acc) = if eqb k0 k then Some s0 else lookup k acc.
Proof. unfold lookup. simpl. now destruct (eqb k0 k). Qed.

Lemma eqb_sym (x y : K) : eqb x y = eqb y x.
Proof.
  unfold eqb. rewrite (cmp_antisym y x). now destruct (cmp y x).
Qed.

Lemma lookup_group_add k v acc k' :
  StronglySorted key_lt acc ->
  lookup k' (group_add k v acc)
  = if eqb k k' then Some (add64 (sum_so_far (lookup k acc)) v)
    else lookup k' acc.
Proof.
  induction 1 as [|[k0 s0] acc Hacc IH Hk0]; simpl.
  - rewrite lookup_cons. reflexivity.
  - destruct (cmp k k0) eqn:Hk.
    + apply cmp_eq in Hk as ->.
      rewrite !lookup_cons, eqb_refl. cbn [sum_so_far].
      now destruct (eqb k0 k').
    + rewrite lookup_cons.
      rewrite (lookup_below (k := k) (acc := (k0, s0) :: acc)); [reflexivity|].
      constructor; [exact Hk|].
      eapply Forall_impl; [|exact Hk0].
      intros e He. unfold key_lt in He. simpl in He.
      eapply cmp_lt_trans; eassumption.
    + rewrite !lookup_cons, IH.
      assert (Hne : eqb k0 k = false).
      { unfold eqb. rewrite (cmp_antisym k k0), Hk. reflexivity. }
      rewrite Hne.
      destruct (eqb k0 k') eqn:Hk'; [|reflexivity].
      apply eqb_eq in Hk' as <-. now rewrite eqb_sym, Hne.
Qed.

Lemma lookup_In k v acc :
  StronglySorted key_lt acc -> (In (k, v) acc <-> lookup k acc = Some v).
Proof.
  induction 1 as [|[k0 s0] acc Hacc IH Hk0]; simpl.
  - split; [tauto | discriminate].
  - rewrite lookup_cons. destruct (eqb k0 k) eqn:Hk.
    + apply eqb_eq in Hk as ->. split.
      * intros [[= ->] | Hin]; [reflexivity|].
        rewrite Forall_forall in Hk0. apply Hk0 in Hin.
        unfold key_lt in Hin. simpl in Hin.
        now apply cmp_lt_irrefl in Hin.
      * intros [= ->]. now left.
    + rewrite <- IH. split; [|tauto].
      intros [[= -> ->] | Hin]; [|assumption].
      now rewrite eqb_refl in Hk.
Qed.

Section Rows.
Context {A : Type} (key : A -> K) (value : A -> Z).

Let step (acc : list (K * Z)) (row : A) := group_add (key row) (value row) acc.

Lemma fold_group_sorted rows acc :
  StronglySorted key_lt acc -> StronglySorted key_lt (fold_left step rows acc).
Proof.
  revert acc. induction rows as [|r rows IH]; intros acc Hacc; simpl; [assumption|].
  apply IH. now apply group_add_sorted.
Qed.

Lemma lookup_fold k rows acc :
  StronglySorted key_lt acc ->
  lookup k (fold_left step rows acc)
  = match map value (filter (fun r => eqb (key r) k) rows) with
    | [] => lookup k acc
    | vs => Some (fold_left add64 vs (sum_so_far (lookup k acc)))
    end.
Proof.
  revert acc. induction rows as [|r rows IH]; intros acc Hacc; [reflexivity|].
  cbn [fold_left filter]. rewrite IH by now apply group_add_sorted.
  unfold step. rewrite lookup_group_add by assumption.
  destruct (eqb (key r) k) eqn:Hr; cbn [map].
  - apply eqb_eq in Hr. rewrite Hr. cbn [sum_so_far fold_left].
    now destruct (map value (filter (fun r0 => eqb (key r0) k) rows)).
  - reflexivity.
Qed.

Lemma groupby_sum_sorted rows : StronglySorted key_lt (groupby_sum key value rows).
Proof. apply fold_group_sorted. constructor. Qed.

(** One group per key that occurs, holding the int64 sum of its rows. *)
Lemma groupby_sum_spec rows k v :
  In (k, v) (groupby_sum key value rows) <->
  (exists r, In r rows /\ key r = k)
  /\ v = sum64 (map value (filter (fun r => eqb (key r) k) rows)).
Proof.
  rewrite (lookup_In k v (groupby_sum_sorted rows)).
  unfold groupby_sum. fold step. rewrite lookup_fold by constructor.
  cbn [lookup sum_so_far].
  destruct (filter (fun r => eqb (key r) k) rows) as [|r0 rs] eqn:Hf; cbn [map].
  - split; [discriminate|]. intros [(r & Hin & Hr) _].
    assert (Hin' : In r (filter (fun r => eqb (key r) k) rows)).
    { apply filter_In. split; [assumption|]. now apply eqb_eq. }
    rewrite Hf in Hin'. destruct Hin'.
  - assert (Hr0 : In r0 rows /\ eqb (key r0) k = true).
    { apply (proj1 (filter_In (fun r => eqb (key r) k) r0 rows)).
      rewrite Hf. now left. }
    destruct Hr0 as [Hin Hk]. apply eqb_eq in Hk.
    unfold lookup. cbn [find option_map]. unfold sum64.
    split.
    + intros [= <-]. split; [eauto | reflexivity].
    + intros [_ ->]. reflexivity.
Qed.

End Rows.
End GroupBy.

(** ** The grouped table of the gender comparison (lines 251-258) *)

Lemma StronglySorted_map {A B} (R : B -> B -> Prop) (f : A -> B) l :
  StronglySorted R l ->
  forall g : B -> A, (forall e, f (g e) = e) ->
  StronglySorted (fun a c => R (f a) (f c)) (map g l).
Proof.
  intros Hl g Hfg. induction Hl as [|e l Hl IH He]; simpl; constructor.
  - exact IH.
  - apply Forall_forall. intros a Ha.
    apply in_map_iff in Ha as (e' & <- & He').
    rewrite !Hfg. rewrite Forall_forall in He. now apply He.
Qed.

Lemma StronglySorted_NoDup {A} (R : A -> A -> Prop) l :
  (forall a, ~ R a a) -> StronglySorted R l -> NoDup l.
Proof.
  intros Hirr. induction 1 as [|a l Hl IH Ha]; constructor; [|assumption].
  intros Hin. rewrite Forall_forall in Ha. exact (Hirr a (Ha a Hin)).
Qed.

Lemma NoDup_key_filter_length {A K} `{CmpLaws K} (f : A -> K) l k :
  NoDup (map f l) -> (List.length (filter (fun a => eqb (f a) k) l) <= 1)%nat.
Proof.
  induction l as [|a l IH]; simpl; intros Hnd; [lia|].
  inversion Hnd as [|? ? Hnotin Hnd']; subst.
  destruct (eqb (f a) k) eqn:Ha; [|now apply IH].
  apply eqb_eq in Ha. subst k. simpl.
  rewrite filter_none; [simpl; lia|].
  intros a' Ha'. apply eqb_neq. intros Heq. apply Hnotin.
  rewrite <- Heq. now apply in_map.
Qed.

Lemma grouped_entry_row e : grouped_entry (grouped_row_of e) = e.
Proof. now destruct e as [[n s] p]. Qed.

Lemma grouped_row_entry g : grouped_row_of (grouped_entry g) = g.
Proof. now destruct g. Qed.

Lemma reset_index_In g l :
  In g (reset_index l) <-> In (grouped_entry g) l.
Proof.
  unfold reset_index. rewrite in_map_iff. split.
  - intros (e & <- & He). now rewrite grouped_entry_row.
  - intros Hin. exists (grouped_entry g). split; [apply grouped_row_entry | assumption].
Qed.

Lemma grouped_key_lt_iff a c :
  cmp (grouped_key a) (grouped_key c) = Lt <-> grouped_key_lt a c.
Proof.
  unfold grouped_key_lt, str_lt.
  cbv [grouped_key cmp Cmp_prod Cmp_string fst snd].
  destruct (String_as_OT.compare (Grouped.name a) (Grouped.name c)) eqn:Hn.
  - apply string_cmp_eq in Hn. split; [intros Hs; right; auto|].
    intros [? | [_ Hs]]; [discriminate | assumption].
  - split; auto.
  - split; [discriminate|]. intros [? | [Hn' _]]; [discriminate|].
    rewrite Hn', string_cmp_refl in Hn. discriminate.
Qed.

Lemma reset_index_sorted l :
  StronglySorted key_lt l -> StronglySorted grouped_key_lt (reset_index l).
Proof.
  intros Hl.
  eapply StronglySorted_impl;
    [|apply (StronglySorted_map (R := key_lt) grouped_entry Hl grouped_row_of
               grouped_entry_row)].
  intros a c Hac. apply grouped_key_lt_iff. exact Hac.
Qed.

Lemma grouped_key_lt_irrefl a : ~ grouped_key_lt a a.
Proof.
  intros Ha. apply grouped_key_lt_iff in Ha. now apply cmp_lt_irrefl in Ha.
Qed.

Lemma grouped_sorted melted year locs band :
  StronglySorted grouped_key_lt (grouped_df_gender melted year locs band).
Proof. apply reset_index_sorted, groupby_sum_sorted. Qed.

Lemma grouped_keys_NoDup l :
  StronglySorted grouped_key_lt l -> NoDup (map grouped_key l).
Proof.
  induction 1 as [|a l Hl IH Ha]; simpl; constructor; [|assumption].
  intros Hin. apply in_map_iff in Hin as (c & Hkey & Hc).
  rewrite Forall_forall in Ha. apply Ha in Hc.
  apply grouped_key_lt_iff in Hc. rewrite Hkey in Hc.
  now apply cmp_lt_irrefl in Hc.
Qed.

Lemma sort_grouped_id l :
  StronglySorted grouped_key_lt l -> grouped_df_gender_sorted l = l.
Proof.
  intros Hl. apply sort_values_sorted_id.
  eapply StronglySorted_impl; [|exact Hl].
  intros a c Hac. apply grouped_key_lt_iff in Hac.
  unfold key_le. apply leb_true. now left.
Qed.

(** The rows of the grouped table, in terms of the rows it sums. *)
Lemma grouped_In melted year locs band g :
  let rows := filtered_df_gender_melted melted year locs band in
  In g (grouped_df_gender melted year locs band) <->
  (exists m, In m rows /\ group_key m = grouped_key g)
  /\ Grouped.Population g
     = sum64 (map Melted.Population
                (filter (fun m => eqb (group_key m) (grouped_key g)) rows)).
Proof.
  intros rows. unfold grouped_df_gender. fold rows.
  rewrite reset_index_In. unfold grouped_entry.
  apply (groupby_sum_spec group_key Melted.Population rows
           (Grouped.name g, Grouped.sex g) (Grouped.Population g)).
Qed.

Lemma filtered_In melted year locs band m :
  In m (filtered_df_gender_melted melted year locs band) ->
  In m melted /\ Melted.Year m = year /\ In (Melted.name m) locs.
Proof.
  unfold filtered_df_gender_melted.
  assert (Hf : In m (filter (fun m => (Melted.Year m =? year)
                                      && isin (Melted.name m) locs) melted) ->
               In m melted /\ Melted.Year m = year /\ In (Melted.name m) locs).
  { intros Hin. apply filter_In in Hin as [Hin Hp].
    apply andb_true_iff in Hp as [Hy Hn]. apply Z.eqb_eq in Hy.
    unfold isin in Hn. apply existsb_exists in Hn as (n & Hn & Heq).
    apply String.eqb_eq in Heq. subst n. auto. }
  destruct (negb (String.eqb band "All Ages")); [|exact Hf].
  intros Hin. apply filter_In in Hin as [Hin _]. now apply Hf.
Qed.

(** C10: in the grouped table every (name, sex) pair occurs once at most;
    the table is in ascending (name, sex) order, so that the sort of line
    258 leaves it as it is; each name in it is a selected one and has at
    most one row per sex, and for one name the F row stands before the M
    row. *)
Theorem grouped_keys_unique_and_ordered melted year locs band :
  let grouped := grouped_df_gender melted year locs band in
  let sorted_grouped := grouped_df_gender_sorted grouped in
  NoDup (map grouped_key grouped)
  /\ sorted_grouped = grouped
  /\ StronglySorted grouped_key_lt sorted_grouped
  /\ (forall g, In g sorted_grouped -> In (Grouped.name g) locs)
  /\ (forall n s, (List.length (rows_of n s sorted_grouped) <= 1)%nat)
  /\ (forall i j gi gj,
         nth_error sorted_grouped i = Some gi ->
         nth_error sorted_grouped j = Some gj ->
         Grouped.name gi = Grouped.name gj ->
         Grouped.sex gi = "F" -> Grouped.sex gj = "M" ->
         (i < j)%nat).
Proof.
  intros grouped sorted_grouped.
  pose proof (grouped_sorted melted year locs band) as Hs. fold grouped in Hs.
  assert (Hid : sorted_grouped = grouped) by now apply sort_grouped_id.
  rewrite Hid.
  split; [now apply grouped_keys_NoDup|].
  split; [reflexivity|].
  split; [assumption|].
  split; [|split].
  - intros g Hg. apply grouped_In in Hg as [(m & Hm & Hkey) _].
    apply filtered_In in Hm as (_ & _ & Hn).
    unfold group_key, grouped_key in Hkey. injection Hkey as Hname _.
    now rewrite <- Hname.
  - intros n s. unfold rows_of.
    apply NoDup_key_filter_length. now apply grouped_keys_NoDup.
  - intros i j gi gj Hi Hj Hname HF HM.
    destruct (Nat.lt_trichotomy i j) as [Hlt | [-> | Hgt]]; [assumption | |].
    + rewrite Hi in Hj. injection Hj as ->. rewrite HF in HM. discriminate.
    + exfalso.
      pose proof (StronglySorted_nth Hs Hgt Hj Hi) as [Hlt | [_ Hlt]].
      * unfold str_lt in Hlt. rewrite Hname, string_cmp_refl in Hlt.
        discriminate.
      * unfold str_lt in Hlt. rewrite HF, HM in Hlt. discriminate.
Qed.

(** ** Totals over several groups *)

Lemma wrap64_idem z : wrap64 (wrap64 z) = wrap64 z.
Proof. apply wrap64_fits, wrap64_range. Qed.

Lemma wrap64_add_compat a a' c c' :
  wrap64 a = wrap64 a' -> wrap64 c = wrap64 c' ->
  wrap64 (a + c) = wrap64 (a' + c').
Proof.
  intros Ha Hc.
  rewrite <- wrap64_add_l, <- wrap64_add_r, Ha, Hc, wrap64_add_l, wrap64_add_r.
  reflexivity.
Qed.

Section GroupTotals.
Context {K : Type} `{CmpLaws K} (P : K -> bool).

Lemma total_cons k s acc :
  total P ((k, s) :: acc) = (if P k then s else 0) + total P acc.
Proof. unfold total. simpl. now destruct (P k). Qed.

Lemma group_add_total_mod k v acc :
  wrap64 (total P (group_add k v acc))
  = wrap64 (total P acc + (if P k then v else 0)).
Proof.
  induction acc as [|[k0 s0] acc IH]; cbn [group_add].
  - rewrite total_cons. unfold total. simpl. unfold add64.
    destruct (P k); [|reflexivity].
    rewrite Z.add_0_r. apply wrap64_idem.
  - destruct (cmp k k0) eqn:Hk.
    + apply cmp_eq in Hk as ->. rewrite !total_cons. unfold add64.
      destruct (P k0).
      * rewrite wrap64_add_l. f_equal. lia.
      * f_equal. lia.
    + rewrite (total_cons k). unfold add64.
      destruct (P k).
      * rewrite wrap64_add_l. f_equal. lia.
      * f_equal. lia.
    + rewrite !total_cons.
      rewrite <- Z.add_assoc.
      apply wrap64_add_compat; [reflexivity | exact IH].
Qed.

Lemma total_nonneg acc :
  (forall e, In e acc -> P (fst e) = true -> 0 <= snd e) -> 0 <= total P acc.
Proof.
  intros Hacc. unfold total. apply Zsum_nonneg. apply Forall_forall.
  intros s Hs. apply in_map_iff in Hs as (e & <- & He).
  apply filter_In in He as [He HP]. now apply Hacc.
Qed.

Lemma group_add_total_exact k v acc :
  (forall e, In e acc -> P (fst e) = true -> 0 <= snd e) ->
  (P k = true -> 0 <= v /\ total P acc + v <= INT64_MAX) ->
  total P (group_add k v acc) = total P acc + (if P k then v else 0)
  /\ (forall e, In e (group_add k v acc) -> P (fst e) = true -> 0 <= snd e).
Proof.
  assert (Hmin : INT64_MIN <= 0) by (unfold INT64_MIN; lia).
  induction acc as [|[k0 s0] acc IH]; intros Hacc Hv; cbn [group_add].
  - rewrite total_cons. unfold total at 1 2. cbn [filter map Zsum fold_right].
    destruct (P k) eqn:HPk.
    + destruct (Hv eq_refl) as [Hv0 Hvmax].
      unfold total in Hvmax. simpl in Hvmax.
      unfold add64. rewrite wrap64_fits by lia. split; [lia|].
      intros e [<- | []] _. simpl. lia.
    + split; [lia|]. intros e [<- | []]. simpl. congruence.
  - pose proof (total_nonneg acc
                  (fun e He => Hacc e (or_intror He))) as Hacc0.
    rewrite !total_cons in *.
    destruct (cmp k k0) eqn:Hk.
    + apply cmp_eq in Hk as ->. rewrite total_cons.
      destruct (P k0) eqn:HPk.
      * destruct (Hv eq_refl) as [Hv0 Hvmax].
        pose proof (Hacc (k0, s0) (or_introl eq_refl) HPk) as Hs0.
        simpl in Hs0. unfold add64. rewrite wrap64_fits by lia.
        split; [lia|].
        intros e [<- | He] HPe; [simpl; lia|]. apply Hacc; [now right | assumption].
      * split; [lia|].
        intros e [<- | He] HPe; [simpl in HPe; congruence|].
        apply Hacc; [now right | assumption].
    + rewrite !total_cons.
      destruct (P k) eqn:HPk.
      * destruct (Hv eq_refl) as [Hv0 Hvmax].
        assert (0 <= (if P k0 then s0 else 0)).
        { destruct (P k0) eqn:HPk0; [|lia].
          exact (Hacc (k0, s0) (or_introl eq_refl) HPk0). }
        unfold add64. rewrite wrap64_fits by lia.
        split; [lia|].
        intros e [<- | He] HPe; [simpl; lia|]. now apply Hacc.
      * split; [lia|].
        intros e [<- | He] HPe; [simpl in HPe; congruence|]. now apply Hacc.
    + rewrite total_cons.
      assert (Hk0 : 0 <= (if P k0 then s0 else 0)).
      { destruct (P k0) eqn:HPk0; [|lia].
        exact (Hacc (k0, s0) (or_introl eq_refl) HPk0). }
      destruct IH as [IHt IHn].
      * intros e He. apply Hacc. now right.
      * intros HPk. destruct (Hv HPk). lia.
      * split; [lia|].
        intros e [<- | He] HPe; [|now apply IHn].
        apply Hacc; [now left | assumption].
Qed.

Section Rows.
Context {A : Type} (key : A -> K) (value : A -> Z).

Let step (acc : list (K * Z)) (row : A) := group_add (key row) (value row) acc.

Lemma fold_total_mod rows acc :
  wrap64 (total P (fold_left step rows acc))
  = wrap64 (total P acc
            + Zsum (map value (filter (fun r => P (key r)) rows))).
Proof.
  revert acc. induction rows as [|r rows IH]; intros acc; cbn [fold_left filter].
  - simpl. f_equal. lia.
  - rewrite IH. unfold step at 1.
    destruct (P (key r)) eqn:HP; cbn [map]; rewrite ?Zsum_cons.
    + rewrite Z.add_assoc.
      apply wrap64_add_compat; [|reflexivity].
      rewrite group_add_total_mod, HP. reflexivity.
    + apply wrap64_add_compat; [|reflexivity].
      rewrite group_add_total_mod, HP. f_equal. lia.
Qed.

Lemma fold_total_exact rows acc :
  (forall e, In e acc -> P (fst e) = true -> 0 <= snd e) ->
  Forall (fun v => 0 <= v) (map value (filter (fun r => P (key r)) rows)) ->
  total P acc + Zsum (map value (filter (fun r => P (key r)) rows))
    <= INT64_MAX ->
  total P (fold_left step rows acc)
  = total P acc + Zsum (map value (filter (fun r => P (key r)) rows)).
Proof.
  revert acc. induction rows as [|r rows IH]; intros acc Hacc Hpos Hmax;
    cbn [fold_left filter] in *.
  - simpl. lia.
  - destruct (P (key r)) eqn:HP; cbn [map] in *; rewrite ?Zsum_cons in *.
    + inversion Hpos as [|? ? Hv Hpos']; subst.
      pose proof (Zsum_nonneg Hpos') as Hrest.
      destruct (@group_add_total_exact (key r) (value r) acc Hacc) as [Ht Hn].
      { intros _. split; [assumption | lia]. }
      rewrite HP in Ht.
      rewrite IH; unfold step; [lia | assumption | assumption | lia].
    + destruct (@group_add_total_exact (key r) (value r) acc Hacc) as [Ht Hn].
      { intros HP'. congruence. }
      rewrite HP in Ht.
      rewrite IH; unfold step; [lia | assumption | assumption | lia].
Qed.

Lemma groupby_total_mod rows :
  wrap64 (total P (groupby_sum key value rows))
  = wrap64 (Zsum (map value (filter (fun r => P (key r)) rows))).
Proof. unfold groupby_sum. fold step. now rewrite fold_total_mod. Qed.

Lemma groupby_total_exact rows :
  Forall (fun v => 0 <= v) (map value (filter (fun r => P (key r)) rows)) ->
  Zsum (map value (filter (fun r => P (key r)) rows)) <= INT64_MAX ->
  total P (groupby_sum key value rows)
  = Zsum (map value (filter (fun r => P (key r)) rows)).
Proof.
  intros Hpos Hmax. unfold groupby_sum. fold step.
  rewrite fold_total_exact; try assumption.
  - reflexivity.
  - intros e [].
Qed.

End Rows.
End GroupTotals.

(** ** From the long-form table back to the detail and raw tables *)

Lemma filter_and {A} (p q : A -> bool) l :
  filter p (filter q l) = filter (fun a => q a && p a) l.
Proof.
  induction l as [|a l IH]; simpl; [reflexivity|].
  destruct (q a); simpl; [destruct (p a)|]; now rewrite IH.
Qed.

Lemma melted_In raw detail melted m :
  preprocess_age_gender_data raw = Ok (detail, melted) ->
  In m melted <->
  exists d, In d detail
            /\ (m = long_row 2011 Detail.population_2011 d
                \/ m = long_row 2022 Detail.population_2022 d).
Proof.
  intros Hp. apply preprocess_Ok in Hp as [_ ->]. split.
  - intros Hm.
    apply (Permutation_in _ (Permutation_sym (sort_values_perm melted_key _)))
      in Hm.
    unfold long_rows in Hm. apply in_app_or in Hm as [Hm | Hm];
      apply in_map_iff in Hm as (d & <- & Hin); eauto.
  - intros (d & Hin & Hm).
    apply (Permutation_in _ (sort_values_perm melted_key _)).
    unfold long_rows. apply in_or_app.
    destruct Hm as [-> | ->]; [left | right]; now apply in_map.
Qed.

Lemma filtered_as_filter melted year locs band :
  filtered_df_gender_melted melted year locs band
  = filter (fun m => (Melted.Year m =? year)
                     && (isin (Melted.name m) locs
                         && band_selected band (Melted.age_band m)))
      melted.
Proof.
  unfold filtered_df_gender_melted, band_selected.
  destruct (negb (String.eqb band "All Ages")).
  - rewrite filter_and. apply filter_ext. intros m.
    now rewrite andb_assoc.
  - apply filter_ext. intros m. now rewrite !andb_true_r.
Qed.

(** The long-form rows of one year that pass a test on the identifier
    columns are the images of the detail rows that pass it. *)
Lemma long_rows_of_year (p : Melted.row -> bool) (q : Detail.row -> bool)
  year detail :
  year = 2011 \/ year = 2022 ->
  (forall y v d, p (long_row y v d) = (y =? year) && q d) ->
  Permutation
    (filter p (sort_values melted_key (long_rows detail)))
    (map (long_row year (detail_population year)) (filter q detail)).
Proof.
  intros Hyear Hpq.
  rewrite sort_values_filter, <- sort_values_perm.
  unfold long_rows. rewrite filter_app, !filter_map_comm.
  destruct Hyear as [-> | ->].
  - rewrite (filter_ext _ q) by (intros d; now rewrite Hpq).
    rewrite (filter_ext (fun a => p (long_row 2022 _ a)) (fun _ => false))
      by (intros d; now rewrite Hpq).
    rewrite (filter_none (fun _ : Detail.row => false)) by reflexivity.
    now rewrite app_nil_r.
  - rewrite (filter_ext (fun a => p (long_row 2011 _ a)) (fun _ => false))
      by (intros d; now rewrite Hpq).
    rewrite (filter_none (fun _ : Detail.row => false)) by reflexivity.
    rewrite (filter_ext _ q) by (intros d; now rewrite Hpq).
    reflexivity.
Qed.

Lemma map_Population_long_row year value l :
  map Melted.Population (map (long_row year value) l) = map value l.
Proof. rewrite map_map. reflexivity. Qed.

(** The rows that the group (n, s) sums, read off the detail table. *)
Lemma group_rows raw detail melted year locs band n s :
  preprocess_age_gender_data raw = Ok (detail, melted) ->
  year = 2011 \/ year = 2022 ->
  Permutation
    (filter (fun m => eqb (group_key m) (n, s))
       (filtered_df_gender_melted melted year locs band))
    (map (long_row year (detail_population year))
       (filter (group_members locs band n s) detail)).
Proof.
  intros Hp Hyear. apply preprocess_Ok in Hp as [_ ->].
  rewrite filtered_as_filter, filter_and.
  apply long_rows_of_year; [assumption|].
  intros y v d. unfold group_members, group_key. cbn [long_row Melted.Year
    Melted.name Melted.sex Melted.age_band].
  now rewrite !andb_assoc.
Qed.

(** The grouped table, read off the detail table. *)
Lemma grouped_In_detail raw detail melted year locs band g :
  preprocess_age_gender_data raw = Ok (detail, melted) ->
  year = 2011 \/ year = 2022 ->
  In g (grouped_df_gender melted year locs band) <->
  (exists d, In d detail
             /\ group_members locs band (Grouped.name g) (Grouped.sex g) d
                = true)
  /\ Grouped.Population g
     = sum64 (map (detail_population year)
                (filter (group_members locs band (Grouped.name g)
                           (Grouped.sex g)) detail)).
Proof.
  intros Hp Hyear. rewrite grouped_In.
  pose proof (group_rows raw locs band (Grouped.name g) (Grouped.sex g) Hp
                Hyear) as Hperm.
  fold (grouped_key g) in Hperm.
  rewrite (sum64_perm (Permutation_map Melted.Population Hperm)).
  rewrite map_Population_long_row.
  enough (Hex :
    (exists m, In m (filtered_df_gender_melted melted year locs band)
               /\ group_key m = grouped_key g) <->
    (exists d, In d detail
               /\ group_members locs band (Grouped.name g) (Grouped.sex g) d
                  = true)) by now rewrite Hex.
  split.
  - intros (m & Hm & Hkey).
    assert (Hin : In m (filter (fun m => eqb (group_key m) (grouped_key g))
                          (filtered_df_gender_melted melted year locs band))).
    { apply filter_In. split; [assumption|]. now apply eqb_eq. }
    apply (Permutation_in _ Hperm) in Hin.
    apply in_map_iff in Hin as (d & _ & Hd).
    apply filter_In in Hd. eauto.
  - intros (d & Hd & Hmem).
    assert (Hin : In (long_row year (detail_population year) d)
                    (map (long_row year (detail_population year))
                       (filter (group_members locs band (Grouped.name g)
                                  (Grouped.sex g)) detail))).
    { apply in_map, filter_In. auto. }
    apply (Permutation_in _ (Permutation_sym Hperm)) in Hin.
    apply filter_In in Hin as [Hin Hkey]. apply eqb_eq in Hkey. eauto.
Qed.

Lemma isin_In n locs : isin n locs = true <-> In n locs.
Proof.
  unfold isin. rewrite existsb_exists. split.
  - intros (x & Hx & Heq). apply String.eqb_eq in Heq. now subst.
  - intros Hin. exists n. split; [assumption | apply String.eqb_refl].
Qed.

Lemma detail_column_of_raw raw detail year
  (q : Detail.row -> bool) (q' : Raw.row -> bool) :
  Forall2 detail_rel raw detail ->
  (forall r d, detail_rel r d -> q d = q' r) ->
  map (detail_population year) (filter q detail)
  = map (raw_population year) (filter q' raw).
Proof.
  intros Hall Hq. induction Hall as [|r d raw detail Hrd _ IH]; [reflexivity|].
  cbn [filter]. rewrite (Hq r d Hrd).
  destruct (q' r); cbn [map]; rewrite IH; [|reflexivity].
  f_equal. destruct Hrd as (a & _ & ->). reflexivity.
Qed.

(** ** The gender comparison over all ages *)

Lemma grouped_name_column l n :
  map Grouped.Population
    (filter (fun g => String.eqb (Grouped.name g) n) (reset_index l))
  = map snd (filter (fun e => String.eqb (fst (fst e)) n) l).
Proof.
  induction l as [|[[n0 s0] p0] l IH]; [reflexivity|].
  cbn [reset_index map filter grouped_row_of Grouped.name fst snd].
  fold (reset_index l).
  destruct (String.eqb n0 n); cbn [map Grouped.Population snd]; now rewrite IH.
Qed.

Lemma name_rows raw detail melted year locs n :
  preprocess_age_gender_data raw = Ok (detail, melted) ->
  year = 2011 \/ year = 2022 ->
  In n locs ->
  Permutation
    (map Melted.Population
       (filter (fun m => String.eqb (fst (group_key m)) n)
          (filtered_df_gender_melted melted year locs "All Ages")))
    (map (raw_population year)
       (filter (fun r => String.eqb (Raw.name r) n) raw)).
Proof.
  intros Hp Hyear Hn. apply preprocess_Ok in Hp as [Hd ->].
  rewrite filtered_as_filter, filter_and.
  rewrite (Permutation_map Melted.Population
             (long_rows_of_year
                (fun m => (Melted.Year m =? year)
                          && (isin (Melted.name m) locs
                              && band_selected "All Ages" (Melted.age_band m))
                          && String.eqb (fst (group_key m)) n)
                (fun d => isin (Detail.name d) locs
                          && String.eqb (Detail.name d) n)
                detail Hyear
                ltac:(intros y v d; cbn; now rewrite andb_true_r, andb_assoc))).
  rewrite map_Population_long_row.
  rewrite (detail_column_of_raw year _
             (fun r => String.eqb (Raw.name r) n) Hd); [reflexivity|].
  intros r d (a & _ & ->). cbn [detail_of Detail.name].
  destruct (String.eqb (Raw.name r) n) eqn:Hr; [|apply andb_false_r].
  apply String.eqb_eq in Hr. rewrite Hr, andb_true_r. now apply isin_In.
Qed.

(** C1: with the band selector on All Ages and a year of 2011 or 2022, the
    grouped populations of a selected name add up, over its sexes, to the
    sum of the population column of that year over the raw rows of the
    name: as int64 sums always, and as exact sums when the raw values are
    non-negative and their sum fits int64. *)
Theorem gender_all_ages_total raw detail melted year locs n :
  preprocess_age_gender_data raw = Ok (detail, melted) ->
  year = 2011 \/ year = 2022 ->
  In n locs ->
  let grouped_n :=
    map Grouped.Population
      (filter (fun g => String.eqb (Grouped.name g) n)
         (grouped_df_gender melted year locs "All Ages")) in
  let raw_n :=
    map (raw_population year)
      (filter (fun r => String.eqb (Raw.name r) n) raw) in
  sum64 grouped_n = sum64 raw_n
  /\ (Forall (fun v => 0 <= v) raw_n -> Zsum raw_n <= INT64_MAX ->
      Zsum grouped_n = Zsum raw_n).
Proof.
  intros Hp Hyear Hn grouped_n raw_n.
  pose proof (name_rows raw locs n Hp Hyear Hn) as Hperm. fold raw_n in Hperm.
  assert (Hcol : grouped_n
                 = map snd
                     (filter (fun e => String.eqb (fst (fst e)) n)
                        (groupby_sum group_key Melted.Population
                           (filtered_df_gender_melted melted year locs
                              "All Ages")))).
  { apply grouped_name_column. }
  split.
  - rewrite !sum64_Zsum, Hcol.
    rewrite <- (Zsum_perm Hperm).
    apply (groupby_total_mod (fun k : string * string => String.eqb (fst k) n)
             group_key Melted.Population).
  - intros Hpos Hmax. rewrite Hcol, <- (Zsum_perm Hperm).
    apply (groupby_total_exact (fun k : string * string => String.eqb (fst k) n)
             group_key Melted.Population).
    + eapply Permutation_Forall; [apply Permutation_sym, Hperm | exact Hpos].
    + now rewrite (Zsum_perm Hperm).
Qed.

(** ** The gender comparison for one band *)

Lemma eqb_pair_string (a c a' c' : string) :
  eqb (a, c) (a', c') = String.eqb a a' && String.eqb c c'.
Proof.
  destruct (String.eqb_spec a a') as [-> | Ha];
    destruct (String.eqb_spec c c') as [-> | Hc]; cbn [andb].
  - apply eqb_refl.
  - apply eqb_neq. congruence.
  - apply eqb_neq. congruence.
  - apply eqb_neq. congruence.
Qed.

Lemma labels_not_all_ages band :
  In band labels -> negb (String.eqb band "All Ages") = true.
Proof.
  cbn [labels In].
  intros [<- | [<- | [<- | [<- | [<- | [<- | []]]]]]]; reflexivity.
Qed.

Lemma group_members_band locs band n s d :
  In band labels ->
  group_members locs band n s d = true <->
  In (Detail.name d) locs /\ Detail.age_band d = Some band
  /\ Detail.name d = n /\ Detail.sex d = s.
Proof.
  intros Hband. unfold group_members, band_selected.
  rewrite (labels_not_all_ages Hband), eqb_pair_string.
  rewrite !andb_true_iff, isin_In, !String.eqb_eq.
  unfold band_eqb. destruct (Detail.age_band d) as [b0|].
  - rewrite String.eqb_eq. split.
    + intros [[Hl ->] [Hn Hs]]. auto.
    + intros (Hl & [= ->] & Hn & Hs). auto.
  - split.
    + intros [[_ Hf] _]. discriminate.
    + intros (_ & Hf & _). discriminate.
Qed.

Lemma group_members_all_ages locs n s d :
  group_members locs "All Ages" n s d = true <->
  In (Detail.name d) locs /\ Detail.name d = n /\ Detail.sex d = s.
Proof.
  unfold group_members, band_selected. cbn [String.eqb Ascii.eqb negb].
  rewrite eqb_pair_string, andb_true_r.
  rewrite !andb_true_iff, isin_In, !String.eqb_eq. tauto.
Qed.

Lemma band_0_17 x :
  band_eqb (cut bins labels x) "0-17" = (0 <=? x) && (x <=? 17).
Proof.
  unfold cut, bins. cbn [searchsorted_left edge_ltb].
  repeat case_ltb; try lia; cbn;
    repeat match goal with
           | |- context [?a <=? ?c] => destruct (Z.leb_spec a c)
           end; try lia; reflexivity.
Qed.

Lemma NoDup_map_on {A B C} (f : A -> B) (h : A -> C) l :
  NoDup (map f l) ->
  (forall a c, In a l -> In c l -> h a = h c -> f a = f c) ->
  NoDup (map h l).
Proof.
  induction l as [|a l IH]; simpl; intros Hnd Hinj; [constructor|].
  inversion Hnd as [|? ? Hnotin Hnd']; subst. constructor.
  - intros Hin. apply in_map_iff in Hin as (c & Hc & Hin).
    apply Hnotin. rewrite <- (Hinj c a); auto. now apply in_map.
  - apply IH; [assumption|]. intros; apply Hinj; auto.
Qed.

(** C6: the grouped table of a year, a set of locations and a band selector
    has one row per (name, sex) that some selected detail row carries, and
    its population is the int64 sum of the year over those rows; with one
    of the six bands the selected rows are those of the locations whose
    band is that band, with All Ages those of the locations whatever their
    band.  For 2022, Scotland and the band 0-17, each row sums the ages 0
    to 17 of Scotland for its sex, no sex has two rows, and there are two
    rows at most when the sexes of the table are F and M. *)
Theorem band_specific_gender_comparison raw detail melted :
  preprocess_age_gender_data raw = Ok (detail, melted) ->
  (forall year locs band g,
      year = 2011 \/ year = 2022 ->
      In g (grouped_df_gender melted year locs band) <->
      (exists d, In d detail
                 /\ group_members locs band (Grouped.name g) (Grouped.sex g) d
                    = true)
      /\ Grouped.Population g
         = sum64 (map (detail_population year)
                    (filter (group_members locs band (Grouped.name g)
                               (Grouped.sex g)) detail)))
  /\ (forall year locs band,
         In band labels ->
         filtered_df_gender_melted melted year locs band
         = filter (fun m => (Melted.Year m =? year)
                            && isin (Melted.name m) locs
                            && band_eqb (Melted.age_band m) band) melted)
  /\ (forall year locs,
         filtered_df_gender_melted melted year locs "All Ages"
         = filter (fun m => (Melted.Year m =? year)
                            && isin (Melted.name m) locs) melted)
  /\ (forall locs band n s d,
         In band labels ->
         group_members locs band n s d = true <->
         In (Detail.name d) locs /\ Detail.age_band d = Some band
         /\ Detail.name d = n /\ Detail.sex d = s)
  /\ (forall locs n s d,
         group_members locs "All Ages" n s d = true <->
         In (Detail.name d) locs /\ Detail.name d = n /\ Detail.sex d = s)
  /\ (let grouped := grouped_df_gender melted 2022 ["SCOTLAND"] "0-17" in
      (forall g,
          In g grouped ->
          Grouped.name g = "SCOTLAND"
          /\ Grouped.Population g
             = sum64 (map Detail.population_2022
                        (filter (scotland_0_17 (Grouped.sex g)) detail)))
      /\ NoDup (map Grouped.sex grouped)
      /\ (Forall (fun r => Raw.sex r = "F" \/ Raw.sex r = "M") raw ->
          (List.length grouped <= 2)%nat)).
Proof.
  intros Hp.
  assert (Hgen : forall year locs band g,
             year = 2011 \/ year = 2022 ->
             In g (grouped_df_gender melted year locs band) <->
             (exists d, In d detail
                        /\ group_members locs band (Grouped.name g)
                             (Grouped.sex g) d = true)
             /\ Grouped.Population g
                = sum64 (map (detail_population year)
                           (filter (group_members locs band (Grouped.name g)
                                      (Grouped.sex g)) detail))).
  { intros year locs band g Hyear. now apply (grouped_In_detail raw). }
  split; [exact Hgen|].
  split.
  { intros year locs band Hband. unfold filtered_df_gender_melted.
    rewrite (labels_not_all_ages Hband), filter_and. reflexivity. }
  split; [reflexivity|].
  split; [intros; now apply group_members_band|].
  split; [intros; apply group_members_all_ages|].
  intros grouped.
  pose proof (preprocess_Ok _ Hp) as [Hd _].
  assert (Hname : forall g, In g grouped -> Grouped.name g = "SCOTLAND").
  { intros g Hg. apply Hgen in Hg as [(d & _ & Hmem) _]; [|now right].
    apply group_members_band in Hmem as ([Hn | []] & _ & <- & _);
      [now symmetry | cbn; auto]. }
  split; [|split].
  - intros g Hg. split; [now apply Hname|].
    pose proof (Hname g Hg) as Hn.
    apply Hgen in Hg as [_ ->]; [|now right]. do 2 f_equal.
    apply filter_ext_in. intros d Hin.
    destruct (Forall2_In_r d Hd Hin) as (r & _ & a & _ & ->).
    unfold group_members, scotland_0_17, band_selected, isin.
    cbn [detail_of Detail.name Detail.sex Detail.age_band Detail.age_numeric
         existsb String.eqb Ascii.eqb negb].
    rewrite band_0_17, eqb_pair_string, Hn.
    destruct (String.eqb (Raw.name r) "SCOTLAND"), (String.eqb (Raw.sex r) (Grouped.sex g)),
      (0 <=? a), (a <=? 17); reflexivity.
  - apply (NoDup_map_on grouped_key).
    + apply grouped_keys_NoDup, grouped_sorted.
    + intros a c Ha Hc Hs. unfold grouped_key.
      now rewrite (Hname a Ha), (Hname c Hc), Hs.
  - intros Hsex.
    assert (Hincl : incl (map grouped_key grouped)
                      [("SCOTLAND", "F"); ("SCOTLAND", "M")]).
    { intros k Hk. apply in_map_iff in Hk as (g & <- & Hg).
      pose proof (Hname g Hg) as Hn.
      apply Hgen in Hg as [(d & Hin & Hmem) _]; [|now right].
      apply group_members_band in Hmem as (_ & _ & _ & Hs); [|cbn; auto].
      destruct (Forall2_In_r d Hd Hin) as (r & Hr & a & _ & ->).
      rewrite Forall_forall in Hsex. cbn [detail_of Detail.sex] in Hs.
      unfold grouped_key. rewrite Hn, <- Hs.
      destruct (Hsex r Hr) as [-> | ->]; cbn; auto. }
    pose proof (NoDup_incl_length
                  (grouped_keys_NoDup (grouped_sorted melted 2022 ["SCOTLAND"] "0-17"))
                  Hincl) as Hlen.
    rewrite length_map in Hlen. exact Hlen.
Qed.

(** ** The gender comparison chart (lines 259-301) *)

Lemma gender_chart_real melted year locs band :
  locs <> [] -> year <> 0 -> band <> "" ->
  grouped_df_gender melted year locs band <> [] ->
  gender_comparison_chart melted year locs band
  = fig_gender_comp
      (grouped_df_gender_sorted (grouped_df_gender melted year locs band))
      year locs band.
Proof.
  intros Hlocs Hyear Hband Hgrouped. unfold gender_comparison_chart.
  destruct locs as [|n locs]; [congruence|].
  apply Z.eqb_neq in Hyear. apply String.eqb_neq in Hband.
  rewrite Hyear, Hband. cbn [orb].
  destruct (grouped_df_gender melted year (n :: locs) band); congruence.
Qed.

(** C9: the chart of the gender comparison has a Female series made of the
    grouped rows of sex F and a Male series made of those of sex M; every
    selected long-form row has its group in the grouped table, and a group
    whose sex is neither F nor M is in neither series. *)
Theorem gender_chart_shows_F_and_M melted year locs band :
  locs <> [] -> year <> 0 -> band <> "" ->
  grouped_df_gender melted year locs band <> [] ->
  let grouped :=
    grouped_df_gender_sorted (grouped_df_gender melted year locs band) in
  map series (go.data (gender_comparison_chart melted year locs band))
  = [ ("Female", map Grouped.name (df_female grouped),
       map Grouped.Population (df_female grouped));
      ("Male", map Grouped.name (df_male grouped),
       map Grouped.Population (df_male grouped)) ]
  /\ (forall g, In g (df_female grouped) <-> In g grouped /\ Grouped.sex g = "F")
  /\ (forall g, In g (df_male grouped) <-> In g grouped /\ Grouped.sex g = "M")
  /\ (forall m,
         In m (filtered_df_gender_melted melted year locs band) ->
         exists g, In g grouped /\ grouped_key g = group_key m)
  /\ (forall g,
         In g grouped -> Grouped.sex g <> "F" -> Grouped.sex g <> "M" ->
         ~ In g (df_female grouped) /\ ~ In g (df_male grouped)).
Proof.
  intros Hlocs Hyear Hband Hgrouped grouped.
  assert (HF : forall g, In g (df_female grouped) <->
                         In g grouped /\ Grouped.sex g = "F").
  { intros g. unfold df_female. rewrite filter_In, String.eqb_eq. tauto. }
  assert (HM : forall g, In g (df_male grouped) <->
                         In g grouped /\ Grouped.sex g = "M").
  { intros g. unfold df_male. rewrite filter_In, String.eqb_eq. tauto. }
  split; [|split; [exact HF | split; [exact HM | split]]].
  - rewrite gender_chart_real by assumption. reflexivity.
  - intros m Hm. unfold grouped.
    rewrite (sort_grouped_id (grouped_sorted melted year locs band)).
    exists {| Grouped.name := Melted.name m;
              Grouped.sex := Melted.sex m;
              Grouped.Population :=
                sum64 (map Melted.Population
                         (filter (fun m' => eqb (group_key m') (group_key m))
                            (filtered_df_gender_melted melted year locs band))) |}.
    split; [|reflexivity].
    apply grouped_In. split; [|reflexivity].
    exists m. split; [assumption | reflexivity].
  - intros g Hg HnF HnM. rewrite HF, HM. tauto.
Qed.

(** ** The density comparison (lines 102-140) *)

(** The stable sort is one of the sorts that numpy may run. *)
Definition stable_sorter : Sorter :=
  {| sort_by := fun A key l => sort_values key l;
     sort_by_perm := fun A key l => sort_values_perm key l;
     sort_by_sorted := fun A key l => sort_values_sorted key l |}.

Lemma str_le_iff (s u : string) : leb s u = true <-> str_le s u.
Proof. apply leb_true. Qed.

Lemma filtered_density_In numpy_sort df selected d :
  In d (filtered_df_density numpy_sort df selected) <->
  In d df /\ In (Density.name d) selected.
Proof.
  unfold filtered_df_density. rewrite <- isin_In.
  rewrite <- (filter_In (fun d => isin (Density.name d) selected) d df). split.
  - apply Permutation_in, Permutation_sym, sort_by_perm.
  - apply Permutation_in, sort_by_perm.
Qed.

(** C4: for a non-empty selection the density filter returns the rows of
    the renamed table whose name is selected, each as often as the table
    has it and each a renamed row of the raw table as it stands, in
    ascending order of name; the chart is drawn from these rows. *)
Theorem density_filter_is_exact (numpy_sort : Sorter)
  (df_density_raw : list DensityRaw.row) (selected : list string) :
  selected <> [] ->
  let df_density := preprocess_density_data df_density_raw in
  let filtered := filtered_df_density numpy_sort df_density selected in
  Permutation
    (filter (fun d => isin (Density.name d) selected) df_density) filtered
  /\ StronglySorted
       (fun a c => str_le (Density.name a) (Density.name c)) filtered
  /\ (forall d, In d filtered <-> In d df_density /\ In (Density.name d) selected)
  /\ (forall d, In d filtered -> exists r, In r df_density_raw /\ d = rename r)
  /\ density_chart numpy_sort df_density selected
     = fig_density filtered selected.
Proof.
  intros Hsel df_density filtered.
  split; [apply sort_by_perm|].
  split.
  { eapply StronglySorted_impl; [|apply sort_by_sorted].
    intros a c. apply str_le_iff. }
  split; [intros d; apply filtered_density_In|].
  split.
  - intros d Hd. apply filtered_density_In in Hd as [Hd _].
    unfold df_density, preprocess_density_data in Hd.
    apply in_map_iff in Hd as (r & <- & Hr). eauto.
  - unfold density_chart. destruct selected; [congruence | reflexivity].
Qed.

(** Lines 102-109 on any list of names, also one that the multiselect of
    line 96 cannot return: the placeholder, with its message, is drawn for
    the empty list and for no other; a non-empty list gives the chart of
    two series over the filtered rows, and a non-empty list of names of the
    table matches a row. *)
Theorem density_placeholder_iff_empty_selection (numpy_sort : Sorter)
  (df_density : list Density.row) (selected : list string) :
  let chart := density_chart numpy_sort df_density selected in
  let message :=
    "Please select at least one location for density comparison." in
  (selected = [] -> chart = create_empty_figure message)
  /\ (selected <> [] ->
      chart = fig_density (filtered_df_density numpy_sort df_density selected)
                selected
      /\ List.length (go.data chart) = 2%nat
      /\ forall msg, chart <> create_empty_figure msg)
  /\ (selected <> [] ->
      filter (fun d => isin (Density.name d) selected) df_density = [] ->
      map series (go.data chart)
      = [("Density 2011", [], []); ("Density 2022", [], [])])
  /\ (selected <> [] ->
      (forall n, In n selected ->
                 exists d, In d df_density /\ Density.name d = n) ->
      filtered_df_density numpy_sort df_density selected <> []).
Proof.
  intros chart message.
  assert (Hreal : selected <> [] ->
                  chart = fig_density
                            (filtered_df_density numpy_sort df_density selected)
                            selected).
  { intros Hsel. unfold chart, density_chart.
    destruct selected; [congruence | reflexivity]. }
  split; [|split; [|split]].
  - intros ->. reflexivity.
  - intros Hsel. rewrite (Hreal Hsel). split; [reflexivity|].
    split; [reflexivity|]. intros msg Heq.
    apply (f_equal (@go.data float)) in Heq. discriminate.
  - intros Hsel Hnone. rewrite (Hreal Hsel).
    unfold filtered_df_density. rewrite Hnone.
    pose proof (sort_by_perm numpy_sort Density.name []) as Hperm.
    apply Permutation_nil in Hperm. rewrite Hperm. reflexivity.
  - intros Hsel Hknown Hempty.
    destruct selected as [|n selected]; [congruence|].
    destruct (Hknown n (or_introl eq_refl)) as (d & Hd & Hn).
    assert (Hin : In d (filtered_df_density numpy_sort df_density
                          (n :: selected))).
    { apply filtered_density_In. split; [assumption|]. left. now symmetry. }
    rewrite Hempty in Hin. destruct Hin.
Qed.

(** Line 102 tests the selection, not the filtered rows: a list with a name
    that is not in the table, which the multiselect never returns, would
    get a chart with two empty series. *)
Lemma density_zero_rows_is_not_placeholder :
  ~ (forall (numpy_sort : Sorter) df_density selected,
        selected = []
        \/ filter (fun d => isin (Density.name d) selected) df_density = [] ->
        exists msg,
          density_chart numpy_sort df_density selected
          = create_empty_figure msg).
Proof.
  intros Hclaim.
  destruct (Hclaim stable_sorter (preprocess_density_data sample_density_raw)
              ["ATLANTIS"]) as [msg Hmsg].
  - right. reflexivity.
  - apply (f_equal (@go.data float)) in Hmsg. discriminate.
Qed.

(** ** The statements on the sample tables *)

Example sample_preprocess :
  preprocess_age_gender_data sample_raw = Ok (sample_detail, sample_melted).
Proof. vm_compute. reflexivity. Qed.

Example sample_grouped_0_17 :
  grouped_df_gender sample_melted 2022 ["SCOTLAND"] "0-17"
  = [ {| Grouped.name := "SCOTLAND"; Grouped.sex := "F";
         Grouped.Population := 34 |};
      {| Grouped.name := "SCOTLAND"; Grouped.sex := "M";
         Grouped.Population := 44 |} ].
Proof. vm_compute. reflexivity. Qed.

Example sample_grouped_all_ages :
  grouped_df_gender sample_melted 2011 ["WALES"; "SCOTLAND"] "All Ages"
  = [ {| Grouped.name := "SCOTLAND"; Grouped.sex := "F";
         Grouped.Population := 60 |};
      {| Grouped.name := "SCOTLAND"; Grouped.sex := "M";
         Grouped.Population := 40 |};
      {| Grouped.name := "WALES"; Grouped.sex := "F";
         Grouped.Population := 7 |};
      {| Grouped.name := "WALES"; Grouped.sex := "M";
         Grouped.Population := 5 |} ].
Proof. vm_compute. reflexivity. Qed.

Example sample_density_england_wales :
  map Density.name
    (filtered_df_density stable_sorter
       (preprocess_density_data sample_density_raw) ["WALES"; "ENGLAND"])
  = ["ENGLAND"; "WALES"].
Proof. vm_compute. reflexivity. Qed.

Example sample_other_sex_series :
  map series
    (go.data (gender_comparison_chart sample_melted_other_sex 2022 ["WALES"]
                "All Ages"))
  = [("Female", ["WALES"], [8]); ("Male", ["WALES"], [6])]
  /\ map grouped_key
       (grouped_df_gender sample_melted_other_sex 2022 ["WALES"] "All Ages")
     = [("WALES", "F"); ("WALES", "M"); ("WALES", "U")].
Proof. vm_compute. split; reflexivity. Qed.

Example cut_17 : cut bins labels 17 = Some "0-17".
Proof. reflexivity. Qed.

Example int_spaces : py_int (PyStr " 17 ") = Some 17.
Proof. reflexivity. Qed.

Example int_negative : py_int (PyStr "-5") = Some (-5).
Proof. reflexivity. Qed.

Example int_underscore : py_int (PyStr "1_000") = Some 1000.
Proof. reflexivity. Qed.

Example int_rejects_label : py_int (PyStr "90+") = None.
Proof. reflexivity. Qed.

Example int_rejects_fraction : py_int (PyStr "17.5") = None.
Proof. reflexivity. Qed.

Example int_rejects_empty : py_int (PyStr "") = None.
Proof. reflexivity. Qed.

Example age_value_label : age_value (PyStr "90+") = Ok 90.
Proof. reflexivity. Qed.

Example age_value_too_large :
  age_value (PyStr "9223372036854775808") = Raise OverflowError.
Proof. reflexivity. Qed.

Example Year_of_2011 : Year_of "population_2011" = Ok 2011.
Proof. reflexivity. Qed.

(** The statement of C1 on the sample table. *)
Lemma gender_all_ages_total_sample :
  let grouped_n :=
    map Grouped.Population
      (filter (fun g => String.eqb (Grouped.name g) "SCOTLAND")
         (grouped_df_gender sample_melted 2022 ["WALES"; "SCOTLAND"]
            "All Ages")) in
  let raw_n :=
    map (raw_population 2022)
      (filter (fun r => String.eqb (Raw.name r) "SCOTLAND") sample_raw) in
  sum64 grouped_n = sum64 raw_n /\ Zsum grouped_n = Zsum raw_n.
Proof.
  destruct (@gender_all_ages_total sample_raw sample_detail sample_melted 2022
              ["WALES"; "SCOTLAND"] "SCOTLAND"
              ltac:(vm_compute; reflexivity)
              ltac:(right; reflexivity)
              ltac:(simpl; right; left; reflexivity))
    as [Hsum Hexact].
  split; [exact Hsum|].
  apply Hexact.
  - vm_compute. repeat constructor; discriminate.
  - vm_compute. discriminate.
Defined.

(** The statement of C3 on the sample table. *)
Lemma unpivot_is_lossless_sample :
  (forall m,
      In m sample_melted <->
      exists d, In d sample_detail
                /\ (m = long_row 2011 Detail.population_2011 d
                    \/ m = long_row 2022 Detail.population_2022 d))
  /\ (forall d,
         In d sample_detail ->
         filter (same_key d) sample_melted
         = [long_row 2011 Detail.population_2011 d;
            long_row 2022 Detail.population_2022 d]).
Proof.
  destruct (@unpivot_is_lossless sample_raw sample_detail sample_melted
              ltac:(vm_compute; reflexivity))
    as [Hrows Hkey].
  split; [exact Hrows|].
  apply Hkey. vm_compute.
  repeat (apply NoDup_cons;
          [simpl; intros Hin;
           repeat (destruct Hin as [Hin | Hin]; [discriminate|]);
           exact Hin|]).
  apply NoDup_nil.
Defined.

(** The statement of C7 on the sample table. *)
Lemma long_form_sorted_stable_sample :
  StronglySorted melted_key_le sample_melted
  /\ melted_unsorted sample_detail = Ok (long_rows sample_detail)
  /\ Permutation (long_rows sample_detail) sample_melted
  /\ forall k,
       filter (fun m => eqb (melted_key m) k) sample_melted
       = filter (fun m => eqb (melted_key m) k) (long_rows sample_detail).
Proof.
  apply (@long_form_sorted_stable sample_raw sample_detail sample_melted).
  vm_compute. reflexivity.
Defined.

(** The statement of C4 on the sample density table. *)
Lemma density_filter_is_exact_sample :
  let df_density := preprocess_density_data sample_density_raw in
  let filtered :=
    filtered_df_density stable_sorter df_density ["WALES"; "ENGLAND"] in
  Permutation
    (filter (fun d => isin (Density.name d) ["WALES"; "ENGLAND"]) df_density)
    filtered
  /\ StronglySorted
       (fun a c => str_le (Density.name a) (Density.name c)) filtered
  /\ (forall d, In d filtered <->
                In d df_density /\ In (Density.name d) ["WALES"; "ENGLAND"])
  /\ (forall d, In d filtered ->
                exists r, In r sample_density_raw /\ d = rename r)
  /\ density_chart stable_sorter df_density ["WALES"; "ENGLAND"]
     = fig_density filtered ["WALES"; "ENGLAND"].
Proof.
  apply (@density_filter_is_exact stable_sorter sample_density_raw
           ["WALES"; "ENGLAND"]).
  discriminate.
Defined.

(** The statement of C9 on the table with a third sex. *)
Lemma gender_chart_shows_F_and_M_sample :
  let grouped :=
    grouped_df_gender_sorted
      (grouped_df_gender sample_melted_other_sex 2022 ["WALES"] "All Ages") in
  map series
    (go.data (gender_comparison_chart sample_melted_other_sex 2022 ["WALES"]
                "All Ages"))
  = [ ("Female", map Grouped.name (df_female grouped),
       map Grouped.Population (df_female grouped));
      ("Male", map Grouped.name (df_male grouped),
       map Grouped.Population (df_male grouped)) ]
  /\ (forall g, In g (df_female grouped) <-> In g grouped /\ Grouped.sex g = "F")
  /\ (forall g, In g (df_male grouped) <-> In g grouped /\ Grouped.sex g = "M")
  /\ (forall m,
         In m (filtered_df_gender_melted sample_melted_other_sex 2022
                 ["WALES"] "All Ages") ->
         exists g, In g grouped /\ grouped_key g = group_key m)
  /\ (forall g,
         In g grouped -> Grouped.sex g <> "F" -> Grouped.sex g <> "M" ->
         ~ In g (df_female grouped) /\ ~ In g (df_male grouped)).
Proof.
  apply (@gender_chart_shows_F_and_M sample_melted_other_sex 2022 ["WALES"]
           "All Ages").
  - discriminate.
  - discriminate.
  - discriminate.
  - vm_compute. discriminate.
Defined.

(** The Scotland example of C6 on the sample table. *)
Lemma band_specific_gender_comparison_sample :
  let grouped := grouped_df_gender sample_melted 2022 ["SCOTLAND"] "0-17" in
  (forall g,
      In g grouped ->
      Grouped.name g = "SCOTLAND"
      /\ Grouped.Population g
         = sum64 (map Detail.population_2022
                    (filter (scotland_0_17 (Grouped.sex g)) sample_detail)))
  /\ NoDup (map Grouped.sex grouped)
  /\ (List.length grouped <= 2)%nat.
Proof.
  destruct (@band_specific_gender_comparison sample_raw sample_detail
              sample_melted ltac:(vm_compute; reflexivity))
    as (_ & _ & _ & _ & _ & Hrows & Hsex & Hlen).
  split; [exact Hrows | split; [exact Hsex|]].
  apply Hlen. unfold sample_raw, raw_row.
  repeat (apply Forall_cons; [simpl; auto|]). apply Forall_nil.
Defined.

(** * Further properties of the pipeline *)

(** ** The preprocessor keeps every row (lines 40-60) *)

Lemma long_rows_length detail :
  List.length (long_rows detail) = (2 * List.length detail)%nat.
Proof. unfold long_rows. rewrite length_app, !length_map. lia. Qed.

(** X1: the preprocessor drops, adds and reorders no row of the raw table:
    the detail table has the raw rows in their order with the five raw
    columns unchanged, and the long-form table has twice as many rows. *)
Theorem preprocess_keeps_rows raw detail melted :
  preprocess_age_gender_data raw = Ok (detail, melted) ->
  map Detail.name detail = map Raw.name raw
  /\ map Detail.sex detail = map Raw.sex raw
  /\ map Detail.age detail = map Raw.age raw
  /\ map Detail.population_2011 detail = map Raw.population_2011 raw
  /\ map Detail.population_2022 detail = map Raw.population_2022 raw
  /\ List.length detail = List.length raw
  /\ List.length melted = (2 * List.length raw)%nat.
Proof.
  intros Hp. apply preprocess_Ok in Hp as [Hd ->].
  assert (Hlen : List.length detail = List.length raw).
  { symmetry. eapply Forall2_length. exact Hd. }
  repeat split; try exact Hlen.
  1-5: induction Hd as [|r d raw detail (a & _ & ->) _ IH]; simpl;
       [reflexivity | f_equal; apply IH; now injection Hlen].
  rewrite <- (Permutation_length (sort_values_perm melted_key _)).
  now rewrite long_rows_length, Hlen.
Qed.

Lemma filter_all {A} (l : list A) : filter (fun _ => true) l = l.
Proof. induction l as [|a l IH]; simpl; now rewrite ?IH. Qed.

(** X2: a long-form row has Year 2011 or 2022, and the rows of either year
    are the detail rows with that year's population: as many as the raw
    table has rows, and with the same exact total as the raw column. *)
Theorem long_form_years raw detail melted :
  preprocess_age_gender_data raw = Ok (detail, melted) ->
  (forall m, In m melted -> Melted.Year m = 2011 \/ Melted.Year m = 2022)
  /\ forall year,
       year = 2011 \/ year = 2022 ->
       let rows := filter (fun m => Melted.Year m =? year) melted in
       Permutation rows (map (long_row year (detail_population year)) detail)
       /\ List.length rows = List.length raw
       /\ Zsum (map Melted.Population rows)
          = Zsum (map (raw_population year) raw).
Proof.
  intros Hp. split.
  - intros m Hm. apply (melted_In raw m Hp) in Hm as (d & _ & [-> | ->]); auto.
  - intros year Hyear rows.
    pose proof (preprocess_Ok _ Hp) as [Hd Hm].
    assert (Hperm : Permutation rows
                      (map (long_row year (detail_population year)) detail)).
    { unfold rows. rewrite Hm.
      rewrite <- (filter_all detail) at 2.
      apply long_rows_of_year; [assumption|].
      intros y v d. cbn [long_row Melted.Year]. now rewrite andb_true_r. }
    split; [exact Hperm|]. split.
    + rewrite (Permutation_length Hperm), length_map.
      symmetry. eapply Forall2_length. exact Hd.
    + rewrite (Zsum_perm (Permutation_map Melted.Population Hperm)).
      rewrite map_Population_long_row.
      rewrite <- (filter_all detail), <- (filter_all raw).
      now rewrite (detail_column_of_raw year (fun _ => true) (fun _ => true) Hd).
Qed.

(** The statement of X1 on the sample table. *)
Lemma preprocess_keeps_rows_sample :
  map Detail.name sample_detail = map Raw.name sample_raw
  /\ map Detail.sex sample_detail = map Raw.sex sample_raw
  /\ map Detail.age sample_detail = map Raw.age sample_raw
  /\ map Detail.population_2011 sample_detail
     = map Raw.population_2011 sample_raw
  /\ map Detail.population_2022 sample_detail
     = map Raw.population_2022 sample_raw
  /\ List.length sample_detail = List.length sample_raw
  /\ List.length sample_melted = (2 * List.length sample_raw)%nat.
Proof.
  apply (@preprocess_keeps_rows sample_raw sample_detail sample_melted).
  vm_compute. reflexivity.
Defined.

(** The statement of X2 on the sample table, for 2022. *)
Lemma long_form_years_sample :
  (forall m, In m sample_melted ->
             Melted.Year m = 2011 \/ Melted.Year m = 2022)
  /\ (let rows := filter (fun m => Melted.Year m =? 2022) sample_melted in
      Permutation rows (map (long_row 2022 (detail_population 2022))
                          sample_detail)
      /\ List.length rows = List.length sample_raw
      /\ Zsum (map Melted.Population rows)
         = Zsum (map (raw_population 2022) sample_raw)).
Proof.
  destruct (@long_form_years sample_raw sample_detail sample_melted
              ltac:(vm_compute; reflexivity)) as [Hyears Hrows].
  split; [exact Hyears|].
  apply (Hrows 2022). right. reflexivity.
Defined.

(** ** The options of the dropdowns (lines 68-69) *)

Lemma unique_from_In seen l n :
  In n (unique_from seen l) <-> In n l /\ ~ In n seen.
Proof.
  revert seen. induction l as [|s l IH]; intros seen; simpl; [tauto|].
  destruct (isin s seen) eqn:Hs.
  - apply isin_In in Hs. rewrite IH. split.
    + intros [Hin Hn]. auto.
    + intros [[<- | Hin] Hn]; [contradiction | auto].
  - assert (Hs' : ~ In s seen).
    { intros Hin. apply isin_In in Hin. congruence. }
    simpl. rewrite IH. simpl. split.
    + intros [<- | [Hin Hn]]; [auto|]. split; [auto | tauto].
    + intros [[<- | Hin] Hn]; [now left|].
      destruct (String.eqb_spec s n) as [-> | Hne]; [now left|].
      right. split; [assumption|]. intros [Heq | Hin']; [congruence | auto].
Qed.

Lemma unique_from_NoDup seen l : NoDup (unique_from seen l).
Proof.
  revert seen. induction l as [|s l IH]; intros seen; simpl; [constructor|].
  destruct (isin s seen); [apply IH|].
  constructor; [|apply IH].
  rewrite unique_from_In. simpl. tauto.
Qed.

Lemma sorted_strict l :
  NoDup l -> StronglySorted str_lt (sorted l).
Proof.
  intros Hnd.
  assert (Hnd' : NoDup (sorted l)).
  { eapply Permutation_NoDup; [apply (sort_values_perm (fun s : string => s))|].
    exact Hnd. }
  pose proof (sort_values_sorted (fun s : string => s) l) as Hs.
  fold (sorted l) in Hs.
  induction Hs as [|a rest Hrest IH Ha]; constructor.
  - apply IH. now inversion Hnd'.
  - inversion Hnd' as [|? ? Hnotin _]; subst.
    apply Forall_forall. intros c Hc. rewrite Forall_forall in Ha.
    pose proof (Ha c Hc) as Hle. unfold key_le in Hle.
    apply leb_true in Hle as [Hlt | ->]; [exact Hlt | contradiction].
Qed.

Lemma sorted_unique_spec l :
  StronglySorted str_lt (sorted (unique l))
  /\ NoDup (sorted (unique l))
  /\ forall n, In n (sorted (unique l)) <-> In n l.
Proof.
  pose proof (unique_from_NoDup [] l) as Hnd. fold (unique l) in Hnd.
  pose proof (sort_values_perm (fun s : string => s) (unique l)) as Hperm.
  fold (sorted (unique l)) in Hperm.
  split; [now apply sorted_strict|].
  split; [eapply Permutation_NoDup; eassumption|].
  intros n. split.
  - intros Hin. apply (Permutation_in _ (Permutation_sym Hperm)) in Hin.
    apply unique_from_In in Hin. tauto.
  - intros Hin. apply (Permutation_in _ Hperm).
    apply unique_from_In. simpl. tauto.
Qed.

Lemma density_locations_In df_density n :
  In n (density_locations df_density) <->
  exists d, In d df_density /\ Density.name d = n.
Proof.
  unfold density_locations.
  destruct (sorted_unique_spec (map Density.name df_density)) as (_ & _ & Hin).
  rewrite Hin, in_map_iff. split; intros (d & H1 & H2); eauto.
Qed.

Lemma age_gender_locations_In df_age_gender_melted n :
  In n (age_gender_locations df_age_gender_melted) <->
  exists m, In m df_age_gender_melted /\ Melted.name m = n.
Proof.
  unfold age_gender_locations.
  destruct (sorted_unique_spec (map Melted.name df_age_gender_melted))
    as (_ & _ & Hin).
  rewrite Hin, in_map_iff. split; intros (d & H1 & H2); eauto.
Qed.

(** X4: the location options of the widgets are the names of the tables,
    each once, in strictly ascending order. *)
Theorem location_options_are_the_names
  (df_density : list Density.row) (df_age_gender_melted : list Melted.row) :
  (StronglySorted str_lt (density_locations df_density)
   /\ NoDup (density_locations df_density)
   /\ forall n, In n (density_locations df_density) <->
                exists d, In d df_density /\ Density.name d = n)
  /\ (StronglySorted str_lt (age_gender_locations df_age_gender_melted)
      /\ NoDup (age_gender_locations df_age_gender_melted)
      /\ forall n, In n (age_gender_locations df_age_gender_melted) <->
                   exists m, In m df_age_gender_melted /\ Melted.name m = n).
Proof.
  split.
  - destruct (sorted_unique_spec (map Density.name df_density))
      as (Hs & Hnd & _).
    repeat split; try assumption; apply density_locations_In.
  - destruct (sorted_unique_spec (map Melted.name df_age_gender_melted))
      as (Hs & Hnd & _).
    repeat split; try assumption; apply age_gender_locations_In.
Qed.

(** ** The density chart, end to end (lines 26-37 and 102-140) *)

Lemma combine_map3 {A B C D} (f : A -> B) (g : A -> C) (h : A -> D) l :
  combine (map f l) (combine (map g l) (map h l))
  = map (fun a => (f a, (g a, h a))) l.
Proof. induction l as [|a l IH]; simpl; now rewrite ?IH. Qed.

Lemma filter_rename selected raw :
  filter (fun d => isin (Density.name d) selected)
    (preprocess_density_data raw)
  = map rename (filter (fun r => isin (DensityRaw.Name r) selected) raw).
Proof. unfold preprocess_density_data. now rewrite filter_map_comm. Qed.

(** X3: for a non-empty selection the density chart has the series Density
    2011 and Density 2022 over the same locations, and its points are, up
    to order, the name and the two density values of the csv rows whose
    name is selected: no value is paired with another row's name. *)
Theorem density_chart_shows_the_csv_values (numpy_sort : Sorter)
  (df_density_raw : list DensityRaw.row) (selected : list string) :
  selected <> [] ->
  exists bar_2011 bar_2022,
    go.data (density_chart numpy_sort
               (preprocess_density_data df_density_raw) selected)
    = [bar_2011; bar_2022]
    /\ go.name bar_2011 = "Density 2011"
    /\ go.name bar_2022 = "Density 2022"
    /\ go.x bar_2011 = go.x bar_2022
    /\ List.length (go.y bar_2011) = List.length (go.x bar_2011)
    /\ List.length (go.y bar_2022) = List.length (go.x bar_2022)
    /\ Permutation
         (combine (go.x bar_2011) (combine (go.y bar_2011) (go.y bar_2022)))
         (map (fun r => (DensityRaw.Name r,
                         (DensityRaw.people_per_sq_km_2011 r,
                          DensityRaw.people_per_sq_km_2022 r)))
            (filter (fun r => isin (DensityRaw.Name r) selected)
               df_density_raw)).
Proof.
  intros Hsel. destruct selected as [|n selected]; [congruence|].
  cbn [density_chart fig_density go.data].
  do 2 eexists. split; [reflexivity|].
  cbn [go.name go.x go.y]. repeat split; try (now rewrite !length_map).
  rewrite combine_map3. unfold filtered_df_density.
  rewrite <- (sort_by_perm numpy_sort Density.name), filter_rename, map_map.
  reflexivity.
Qed.

(** X5: when the selection is not empty and made of options of the
    dropdown, the locations on the x axis of both density series are
    exactly the selected ones: every selected location has its bars. *)
Theorem density_options_are_all_plotted (numpy_sort : Sorter)
  (df_density : list Density.row) (selected : list string) :
  selected <> [] ->
  incl selected (density_locations df_density) ->
  let chart := density_chart numpy_sort df_density selected in
  List.length (go.data chart) = 2%nat
  /\ forall bar, In bar (go.data chart) ->
                 forall n, In n (go.x bar) <-> In n selected.
Proof.
  intros Hsel Hincl chart. unfold chart.
  destruct selected as [|n0 selected]; [congruence|].
  cbn [density_chart fig_density go.data]. split; [reflexivity|].
  assert (Hx : forall n,
             In n (map Density.name
                     (filtered_df_density numpy_sort df_density
                        (n0 :: selected)))
             <-> In n (n0 :: selected)).
  { intros n. rewrite in_map_iff. split.
    - intros (d & <- & Hd). now apply filtered_density_In in Hd.
    - intros Hn.
      pose proof (Hincl n Hn) as Hopt.
      apply density_locations_In in Hopt as (d & Hd & Hname).
      exists d. split; [assumption|].
      apply filtered_density_In. split; [assumption | now rewrite Hname]. }
  intros bar [<- | [<- | []]]; cbn [go.x]; exact Hx.
Qed.

(** ** The location axis of the charts *)

Lemma StronglySorted_filter {A} (R : A -> A -> Prop) (p : A -> bool) l :
  StronglySorted R l -> StronglySorted R (filter p l).
Proof.
  induction 1 as [|a l Hl IH Ha]; simpl; [constructor|].
  destruct (p a); [|exact IH].
  constructor; [exact IH|].
  apply Forall_forall. intros c Hc. apply filter_In in Hc as [Hc _].
  rewrite Forall_forall in Ha. now apply Ha.
Qed.

Lemma StronglySorted_map_key {A B} (R : B -> B -> Prop) (f : A -> B) l :
  StronglySorted (fun a c => R (f a) (f c)) l -> StronglySorted R (map f l).
Proof.
  induction 1 as [|a l Hl IH Ha]; simpl; constructor; [exact IH|].
  apply Forall_forall. intros c Hc. apply in_map_iff in Hc as (c' & <- & Hc').
  rewrite Forall_forall in Ha. now apply Ha.
Qed.

Lemma sorted_categories selected :
  Permutation selected (sorted selected)
  /\ StronglySorted str_le (sorted selected).
Proof.
  split; [apply (sort_values_perm (fun s : string => s))|].
  eapply StronglySorted_impl;
    [|apply (sort_values_sorted (fun s : string => s))].
  intros a c. apply str_le_iff.
Qed.

(** X6: in the density chart of a non-empty selection the categories of
    the location axis are the selection in ascending order, and each series
    lists its locations in ascending order, all of them categories. *)
Theorem density_axis_is_consistent (numpy_sort : Sorter)
  (df_density : list Density.row) (selected : list string) :
  selected <> [] ->
  let chart := density_chart numpy_sort df_density selected in
  exists categories,
    go.categoryarray (go.layout chart) = Some categories
    /\ go.categoryorder (go.layout chart) = Some "array"
    /\ Permutation selected categories
    /\ StronglySorted str_le categories
    /\ forall bar, In bar (go.data chart) ->
                   StronglySorted str_le (go.x bar)
                   /\ incl (go.x bar) categories.
Proof.
  intros Hsel chart. unfold chart.
  destruct selected as [|n0 selected]; [congruence|].
  cbn [density_chart fig_density go.data go.layout grouped_bar_layout
       go.categoryarray go.categoryorder].
  exists (sorted (n0 :: selected)).
  destruct (sorted_categories (n0 :: selected)) as [Hperm Hsorted].
  split; [reflexivity|]. split; [reflexivity|].
  split; [assumption|]. split; [assumption|].
  assert (Hx : let xs := map Density.name
                           (filtered_df_density numpy_sort df_density
                              (n0 :: selected)) in
               StronglySorted str_le xs /\ incl xs (sorted (n0 :: selected))).
  { split.
    - apply StronglySorted_map_key.
      eapply StronglySorted_impl; [|apply sort_by_sorted].
      intros a c. apply str_le_iff.
    - intros n Hn. apply in_map_iff in Hn as (d & <- & Hd).
      apply filtered_density_In in Hd as [_ Hd].
      now apply (Permutation_in _ Hperm). }
  intros bar [<- | [<- | []]]; cbn [go.x]; exact Hx.
Qed.

Lemma same_sex_sorted (s : string) grouped :
  StronglySorted grouped_key_lt grouped ->
  StronglySorted str_lt
    (map Grouped.name
       (filter (fun g => String.eqb (Grouped.sex g) s) grouped)).
Proof.
  intros Hs. apply StronglySorted_map_key.
  induction Hs as [|a l Hl IH Ha]; simpl; [constructor|].
  destruct (String.eqb_spec (Grouped.sex a) s) as [Hsa | _]; [|exact IH].
  constructor; [exact IH|].
  apply Forall_forall. intros c Hc. apply filter_In in Hc as [Hc Hsc].
  apply String.eqb_eq in Hsc. rewrite Forall_forall in Ha.
  destruct (Ha c Hc) as [Hlt | [_ Hlt]]; [exact Hlt|].
  unfold str_lt in Hlt. rewrite Hsa, Hsc, string_cmp_refl in Hlt.
  discriminate.
Qed.

Lemma str_lt_irrefl s : ~ str_lt s s.
Proof. unfold str_lt. rewrite string_cmp_refl. discriminate. Qed.

(** X7: when the gender chart is drawn, the categories of its location
    axis are the selected locations in ascending order, and each of the two
    series lists its locations in strictly ascending order, so a location
    has one bar per series at most; all of them are categories, and every
    series has as many values as locations. *)
Theorem gender_axis_is_consistent melted year locs band :
  locs <> [] -> year <> 0 -> band <> "" ->
  grouped_df_gender melted year locs band <> [] ->
  let chart := gender_comparison_chart melted year locs band in
  exists categories,
    go.categoryarray (go.layout chart) = Some categories
    /\ Permutation locs categories
    /\ StronglySorted str_le categories
    /\ forall bar, In bar (go.data chart) ->
                   StronglySorted str_lt (go.x bar)
                   /\ NoDup (go.x bar)
                   /\ incl (go.x bar) categories
                   /\ List.length (go.y bar) = List.length (go.x bar).
Proof.
  intros Hlocs Hyear Hband Hgrouped chart. unfold chart.
  rewrite gender_chart_real by assumption.
  rewrite (sort_grouped_id (grouped_sorted melted year locs band)).
  cbn [fig_gender_comp go.data go.layout grouped_bar_layout go.categoryarray].
  exists (sorted locs).
  destruct (sorted_categories locs) as [Hperm Hsorted].
  split; [reflexivity|]. split; [assumption|]. split; [assumption|].
  assert (Hseries : forall s,
             let xs := map Grouped.name
                         (filter (fun g => String.eqb (Grouped.sex g) s)
                            (grouped_df_gender melted year locs band)) in
             StronglySorted str_lt xs /\ NoDup xs /\ incl xs (sorted locs)).
  { intros s xs.
    pose proof (same_sex_sorted s (grouped_sorted melted year locs band))
      as Hxs. fold xs in Hxs.
    split; [exact Hxs|]. split.
    - eapply StronglySorted_NoDup; [apply str_lt_irrefl | exact Hxs].
    - intros n Hn. apply in_map_iff in Hn as (g & <- & Hg).
      apply filter_In in Hg as [Hg _].
      apply grouped_In in Hg as [(m & Hm & Hkey) _].
      apply filtered_In in Hm as (_ & _ & Hn).
      injection Hkey as Hname _. rewrite <- Hname.
      now apply (Permutation_in _ Hperm). }
  intros bar [<- | [<- | []]]; cbn [go.x go.y];
    unfold df_female, df_male; rewrite !length_map;
    (split; [apply Hseries | split; [apply Hseries | split;
       [apply Hseries | reflexivity]]]).
Qed.

(** ** When the gender section shows a placeholder (lines 236-256) *)

Lemma grouped_empty_iff melted year locs band :
  grouped_df_gender melted year locs band = [] <->
  filtered_df_gender_melted melted year locs band = [].
Proof.
  split.
  - intros Hg.
    destruct (filtered_df_gender_melted melted year locs band) as [|m rows]
      eqn:Hrows; [reflexivity|].
    exfalso.
    assert (Hin : In {| Grouped.name := Melted.name m;
                        Grouped.sex := Melted.sex m;
                        Grouped.Population :=
                          sum64 (map Melted.Population
                                   (filter (fun m' => eqb (group_key m')
                                                        (group_key m))
                                      (m :: rows))) |}
                    (grouped_df_gender melted year locs band)).
    { apply grouped_In. rewrite Hrows. split; [|reflexivity].
      exists m. split; [now left | reflexivity]. }
    rewrite Hg in Hin. destruct Hin.
  - intros Hrows. unfold grouped_df_gender. now rewrite Hrows.
Qed.

(** X8: the gender section draws no series exactly when the location
    selection is empty, the year is 0, the band selector is empty, or no
    long-form row has the year, a selected location and the band; it then
    shows a placeholder, with the No data message in the last case.  On the
    table of the preprocessor a year other than 2011 and 2022 selects no
    row. *)
Theorem gender_placeholder_iff melted year locs band :
  let chart := gender_comparison_chart melted year locs band in
  let rows := filtered_df_gender_melted melted year locs band in
  (go.data chart = [] <->
   locs = [] \/ year = 0 \/ band = "" \/ rows = [])
  /\ (go.data chart = [] -> exists msg, chart = create_empty_figure msg)
  /\ (locs <> [] -> year <> 0 -> band <> "" -> rows = [] ->
      chart = create_empty_figure
                ("No data for selection in " ++ str year ++ " "
                 ++ age_title_part band))
  /\ (forall raw detail,
         preprocess_age_gender_data raw = Ok (detail, melted) ->
         year <> 2011 -> year <> 2022 -> rows = []).
Proof.
  intros chart rows.
  assert (Hnodata : locs <> [] -> year <> 0 -> band <> "" -> rows = [] ->
                    chart = create_empty_figure
                              ("No data for selection in " ++ str year ++ " "
                               ++ age_title_part band)).
  { intros Hlocs Hyear Hband Hrows. unfold chart, gender_comparison_chart.
    destruct locs as [|n locs]; [congruence|].
    apply Z.eqb_neq in Hyear. apply String.eqb_neq in Hband.
    rewrite Hyear, Hband. cbn [orb].
    now rewrite (proj2 (grouped_empty_iff melted year (n :: locs) band) Hrows). }
  assert (Hcases : (locs = [] \/ year = 0 \/ band = "")
                   \/ (locs <> [] /\ year <> 0 /\ band <> "")).
  { destruct locs as [|n locs]; [now left; left|].
    destruct (Z.eq_dec year 0); [now left; right; left|].
    destruct (String.eqb_spec band ""); [now left; right; right|].
    right. repeat split; congruence. }
  assert (Hfirst : locs = [] \/ year = 0 \/ band = "" ->
                   chart = create_empty_figure
                     "Select year, location(s), and age band for gender comparison.").
  { intros Hsel. unfold chart, gender_comparison_chart.
    destruct Hsel as [-> | [-> | ->]]; [reflexivity | |].
    - now rewrite orb_true_r.
    - now rewrite orb_true_r. }
  split; [|split; [|split; [exact Hnodata|]]].
  - split.
    + intros Hdata.
      destruct Hcases as [Hsel | (Hlocs & Hyear & Hband)]; [tauto|].
      do 3 right.
      destruct rows as [|m rows'] eqn:Hrows; [reflexivity|]. exfalso.
      assert (Hg : grouped_df_gender melted year locs band <> []).
      { intros Hg. apply grouped_empty_iff in Hg. fold rows in Hg.
        congruence. }
      unfold chart in Hdata.
      rewrite gender_chart_real in Hdata by assumption. discriminate.
    + intros Hor.
      destruct Hcases as [Hsel | (Hlocs & Hyear & Hband)].
      * now rewrite (Hfirst Hsel).
      * destruct Hor as [? | [? | [? | Hrows]]]; try contradiction.
        now rewrite (Hnodata Hlocs Hyear Hband Hrows).
  - intros Hdata.
    destruct Hcases as [Hsel | (Hlocs & Hyear & Hband)]; [eauto|].
    destruct rows as [|m rows'] eqn:Hrows; [eauto|]. exfalso.
    assert (Hg : grouped_df_gender melted year locs band <> []).
    { intros Hg. apply grouped_empty_iff in Hg. fold rows in Hg. congruence. }
    unfold chart in Hdata.
    rewrite gender_chart_real in Hdata by assumption. discriminate.
  - intros raw detail Hp H2011 H2022.
    destruct rows as [|m rows'] eqn:Hrows; [reflexivity|]. exfalso.
    assert (Hm : In m rows) by (rewrite Hrows; now left).
    apply filtered_In in Hm as (Hm & Hy & _).
    apply (melted_In raw m Hp) in Hm as (d & _ & [-> | ->]);
      cbn [long_row Melted.Year] in Hy; congruence.
Qed.

(** X15: the density filter reads its selection as a set: two selections
    with the same members give the same rows in the same order. *)
Theorem density_filter_reads_selection_as_set (numpy_sort : Sorter)
  (df_density : list Density.row) (selected selected' : list string) :
  (forall n, In n selected <-> In n selected') ->
  filtered_df_density numpy_sort df_density selected
  = filtered_df_density numpy_sort df_density selected'.
Proof.
  intros Hsame. unfold filtered_df_density. f_equal.
  apply filter_ext. intros d.
  destruct (isin (Density.name d) selected) eqn:H1,
           (isin (Density.name d) selected') eqn:H2; try reflexivity.
  - apply isin_In, Hsame, isin_In in H1. congruence.
  - apply isin_In, Hsame, isin_In in H2. congruence.
Qed.

(** ** The six bands against All Ages (lines 245-253) *)

Lemma group_population_detail raw detail melted year locs band n s :
  preprocess_age_gender_data raw = Ok (detail, melted) ->
  year = 2011 \/ year = 2022 ->
  group_population (grouped_df_gender melted year locs band) n s
  = sum64 (map (detail_population year)
             (filter (group_members locs band n s) detail)).
Proof.
  intros Hp Hyear. unfold group_population, rows_of.
  pose proof (NoDup_key_filter_length grouped_key
                (grouped_df_gender melted year locs band) (n, s)
                (grouped_keys_NoDup (grouped_sorted melted year locs band)))
    as Hlen.
  destruct (filter (fun g => eqb (grouped_key g) (n, s))
              (grouped_df_gender melted year locs band))
    as [|g [|g' rest]] eqn:Hrows.
  - destruct (filter (group_members locs band n s) detail) as [|d ds] eqn:Hds;
      [reflexivity|]. exfalso.
    pose (g := {| Grouped.name := n; Grouped.sex := s;
                  Grouped.Population :=
                    sum64 (map (detail_population year)
                             (filter (group_members locs band n s) detail)) |}).
    assert (Hg : In g (grouped_df_gender melted year locs band)).
    { apply (grouped_In_detail raw locs band g Hp Hyear).
      split; [|reflexivity]. exists d. cbn [g Grouped.name Grouped.sex].
      apply (proj1 (filter_In (group_members locs band n s) d detail)).
      rewrite Hds. now left. }
    assert (Hin : In g (filter (fun g => eqb (grouped_key g) (n, s))
                          (grouped_df_gender melted year locs band))).
    { apply filter_In. split; [exact Hg | apply eqb_refl]. }
    rewrite Hrows in Hin. destruct Hin.
  - assert (Hg : In g (grouped_df_gender melted year locs band)
                 /\ eqb (grouped_key g) (n, s) = true).
    { apply (proj1 (filter_In (fun g => eqb (grouped_key g) (n, s)) g
                      (grouped_df_gender melted year locs band))).
      rewrite Hrows. now left. }
    destruct Hg as [Hg Hkey]. apply eqb_eq in Hkey.
    injection Hkey as <- <-.
    apply (grouped_In_detail raw locs band g Hp Hyear) in Hg as [_ Hpop].
    cbn [map]. rewrite Zsum_cons, Hpop. cbn [Zsum fold_right]. lia.
  - simpl in Hlen. lia.
Qed.

Lemma wrap64_Zsum_map {A} (f : A -> Z) l :
  wrap64 (Zsum (map (fun a => wrap64 (f a)) l)) = wrap64 (Zsum (map f l)).
Proof.
  induction l as [|a l IH]; [reflexivity|].
  cbn [map]. rewrite !Zsum_cons.
  apply wrap64_add_compat; [apply wrap64_idem | exact IH].
Qed.

Lemma Zsum_filter {A} (q : A -> bool) (f : A -> Z) l :
  Zsum (map f (filter q l)) = Zsum (map (fun a => if q a then f a else 0) l).
Proof.
  induction l as [|a l IH]; [reflexivity|].
  cbn [filter map]. destruct (q a); cbn [map]; rewrite !Zsum_cons, IH; lia.
Qed.

Lemma Zsum_exchange {A B} (c : B -> A -> Z) (bs : list B) (l : list A) :
  Zsum (map (fun b => Zsum (map (c b) l)) bs)
  = Zsum (map (fun a => Zsum (map (fun b => c b a) bs)) l).
Proof.
  induction bs as [|b bs IH]; cbn [map].
  - rewrite Zsum_cons || idtac. induction l as [|a l IHl]; [reflexivity|].
    cbn [map]. rewrite Zsum_cons, <- IHl. reflexivity.
  - rewrite Zsum_cons, IH. clear IH.
    induction l as [|a l IHl]; [reflexivity|].
    cbn [map]. rewrite !Zsum_cons, <- IHl. lia.
Qed.

Lemma one_band_selects locs n s (f : Detail.row -> Z) d band :
  In band labels -> Detail.age_band d = Some band ->
  Zsum (map (fun b => if group_members locs b n s d then f d else 0)
          age_bands_raw)
  = if group_members locs "All Ages" n s d then f d else 0.
Proof.
  intros Hband Hd. unfold group_members, band_selected. rewrite Hd.
  cbn [labels In] in Hband.
  destruct Hband as [<- | [<- | [<- | [<- | [<- | [<- | []]]]]]];
    cbn [age_bands_raw map Zsum fold_right band_eqb String.eqb Ascii.eqb
         Bool.eqb negb];
    destruct (isin (Detail.name d) locs),
             (eqb (Detail.name d, Detail.sex d) (n, s));
    cbn [andb]; lia.
Qed.

Lemma detail_band_of_age raw detail melted d :
  preprocess_age_gender_data raw = Ok (detail, melted) ->
  In d detail ->
  Detail.age_band d = cut bins labels (Detail.age_numeric d).
Proof.
  intros Hp Hd. apply preprocess_Ok in Hp as [Hall _].
  destruct (Forall2_In_r d Hall Hd) as (r & _ & a & _ & ->). reflexivity.
Qed.

(** X9: when no numeric age is negative, the populations that the six
    band selections give for a location and a sex add up, as an int64 sum,
    to the population of the All Ages selection; a row with a negative
    numeric age belongs to no band selection. *)
Theorem bands_add_up_to_all_ages raw detail melted year locs n s :
  preprocess_age_gender_data raw = Ok (detail, melted) ->
  year = 2011 \/ year = 2022 ->
  (Forall (fun d => 0 <= Detail.age_numeric d) detail ->
   sum64 (map (fun band =>
                 group_population (grouped_df_gender melted year locs band)
                   n s)
            age_bands_raw)
   = group_population (grouped_df_gender melted year locs "All Ages") n s)
  /\ (forall d band,
         In d detail -> Detail.age_numeric d < 0 -> In band age_bands_raw ->
         group_members locs band n s d = false).
Proof.
  intros Hp Hyear. split.
  - intros Hpos.
    rewrite (map_ext _ (fun band =>
               wrap64 (Zsum (map (detail_population year)
                               (filter (group_members locs band n s) detail)))))
      by (intros band;
          now rewrite (group_population_detail raw locs band n s Hp Hyear),
                      sum64_Zsum).
    rewrite (group_population_detail raw locs "All Ages" n s Hp Hyear).
    rewrite !sum64_Zsum, wrap64_Zsum_map. f_equal.
    rewrite (map_ext _ (fun band =>
               Zsum (map (fun d => if group_members locs band n s d
                                   then detail_population year d else 0)
                       detail)))
      by (intros band; apply Zsum_filter).
    rewrite Zsum_exchange, Zsum_filter. f_equal.
    apply map_ext_in. intros d Hd.
    rewrite Forall_forall in Hpos.
    destruct (cut_in_interval (Hpos d Hd)) as (lo & hi & band & Hcut & Hin & _).
    apply (one_band_selects locs n s (detail_population year) d (band := band)).
    + unfold intervals in Hin. now apply in_combine_r in Hin.
    + now rewrite (detail_band_of_age raw d Hp Hd).
  - intros d band Hd Hneg Hband.
    unfold group_members, band_selected.
    rewrite (detail_band_of_age raw d Hp Hd), (cut_negative Hneg).
    change age_bands_raw with labels in Hband.
    rewrite (labels_not_all_ages Hband). cbn [band_eqb].
    now rewrite andb_false_r.
Qed.

(** The statement of X9 on the sample table. *)
Lemma bands_add_up_to_all_ages_sample :
  sum64 (map (fun band =>
                group_population
                  (grouped_df_gender sample_melted 2022 ["SCOTLAND"] band)
                  "SCOTLAND" "F")
           age_bands_raw)
  = group_population
      (grouped_df_gender sample_melted 2022 ["SCOTLAND"] "All Ages")
      "SCOTLAND" "F".
Proof.
  destruct (@bands_add_up_to_all_ages sample_raw sample_detail sample_melted
              2022 ["SCOTLAND"] "SCOTLAND" "F"
              ltac:(vm_compute; reflexivity) ltac:(right; reflexivity))
    as [Hsum _].
  apply Hsum. unfold sample_detail.
  repeat (apply Forall_cons; [simpl; lia|]). apply Forall_nil.
Defined.

(** ** The gender comparison does not depend on the order of the rows *)

Lemma Permutation_filter {A} (p : A -> bool) l l' :
  Permutation l l' -> Permutation (filter p l) (filter p l').
Proof.
  induction 1 as [|a l l' _ IH|a c l|l l' l'' _ IH1 _ IH2]; simpl.
  - constructor.
  - destruct (p a); [now constructor | assumption].
  - destruct (p a), (p c); try reflexivity. apply perm_swap.
  - now transitivity (filter p l').
Qed.

Lemma StronglySorted_In_eq {A} (R : A -> A -> Prop) l l' :
  (forall a, ~ R a a) ->
  (forall a c e, R a c -> R c e -> R a e) ->
  StronglySorted R l -> StronglySorted R l' ->
  (forall a, In a l <-> In a l') ->
  l = l'.
Proof.
  intros Hirr Htr Hl. revert l'.
  induction Hl as [|a l Hl IH Ha]; intros l' Hl' Hsame.
  - destruct l' as [|c l']; [reflexivity|].
    destruct (proj2 (Hsame c) (or_introl eq_refl)).
  - destruct Hl' as [|c l' Hl' Hc].
    + destruct (proj1 (Hsame a) (or_introl eq_refl)).
    + rewrite Forall_forall in Ha, Hc.
      assert (Hac : a = c).
      { destruct (proj1 (Hsame a) (or_introl eq_refl)) as [Heq | Hin];
          [now symmetry|].
        destruct (proj2 (Hsame c) (or_introl eq_refl)) as [Heq | Hin'];
          [assumption|].
        exfalso. apply (Hirr a). eapply Htr; [apply Ha | apply Hc]; eassumption. }
      subst c. f_equal. apply IH; [assumption|].
      intros e. split; intros He.
      * destruct (proj1 (Hsame e) (or_intror He)) as [<- | Hin]; [|assumption].
        exfalso. exact (Hirr a (Ha a He)).
      * destruct (proj2 (Hsame e) (or_intror He)) as [<- | Hin]; [|assumption].
        exfalso. exact (Hirr a (Hc a He)).
Qed.

Lemma grouped_key_lt_trans a c e :
  grouped_key_lt a c -> grouped_key_lt c e -> grouped_key_lt a e.
Proof.
  rewrite <- !grouped_key_lt_iff. apply cmp_lt_trans.
Qed.

(** X10: the grouped table of the gender comparison is the same for any
    order of the rows of the long-form table and for any two selections
    with the same members; the chart therefore does not depend on the
    order of the long-form rows, and the sort of line 59 changes nothing
    in it. *)
Theorem gender_comparison_ignores_row_order
  melted melted' year locs locs' band :
  Permutation melted melted' ->
  (forall n, In n locs <-> In n locs') ->
  grouped_df_gender melted year locs band
  = grouped_df_gender melted' year locs' band
  /\ gender_comparison_chart melted year locs band
     = gender_comparison_chart melted' year locs band
  /\ gender_comparison_chart (sort_values melted_key melted) year locs band
     = gender_comparison_chart melted year locs band.
Proof.
  assert (Hgen : forall rows rows' l l',
             Permutation rows rows' -> (forall n, In n l <-> In n l') ->
             grouped_df_gender rows year l band
             = grouped_df_gender rows' year l' band).
  { intros rows rows' l l' Hperm Hsame.
    assert (Hrows : Permutation
                      (filtered_df_gender_melted rows year l band)
                      (filtered_df_gender_melted rows' year l' band)).
    { rewrite !filtered_as_filter.
      rewrite (filter_ext _ (fun m => (Melted.Year m =? year)
                               && (isin (Melted.name m) l'
                                   && band_selected band (Melted.age_band m)))).
      - now apply Permutation_filter.
      - intros m. do 2 f_equal.
        destruct (isin (Melted.name m) l) eqn:H1,
                 (isin (Melted.name m) l') eqn:H2; try reflexivity.
        + apply isin_In, Hsame, isin_In in H1. congruence.
        + apply isin_In, Hsame, isin_In in H2. congruence. }
    apply (StronglySorted_In_eq grouped_key_lt_irrefl grouped_key_lt_trans
             (grouped_sorted rows year l band)
             (grouped_sorted rows' year l' band)).
    intros g. rewrite !grouped_In.
    rewrite (sum64_perm
               (Permutation_map Melted.Population
                  (Permutation_filter
                     (fun m => eqb (group_key m) (grouped_key g)) Hrows))).
    split; intros [(m & Hm & Hkey) Hpop]; (split; [|exact Hpop]);
      exists m; (split; [|exact Hkey]).
    - now apply (Permutation_in _ Hrows).
    - now apply (Permutation_in _ (Permutation_sym Hrows)). }
  assert (Hchart : forall rows rows',
             Permutation rows rows' ->
             gender_comparison_chart rows year locs band
             = gender_comparison_chart rows' year locs band).
  { intros rows rows' Hperm. unfold gender_comparison_chart. cbv zeta.
    now rewrite (Hgen rows rows' locs locs Hperm (fun n => iff_refl _)). }
  intros Hperm Hsame. split; [now apply Hgen|]. split; [now apply Hchart|].
  apply Hchart, Permutation_sym, sort_values_perm.
Qed.

(** The statement of X10 on the sample table, read backwards and with the
    locations given the other way round. *)
Lemma gender_comparison_ignores_row_order_sample :
  grouped_df_gender sample_melted 2022 ["WALES"; "SCOTLAND"] "All Ages"
  = grouped_df_gender (rev sample_melted) 2022 ["SCOTLAND"; "WALES"]
      "All Ages"
  /\ gender_comparison_chart sample_melted 2022 ["WALES"; "SCOTLAND"]
       "All Ages"
     = gender_comparison_chart (rev sample_melted) 2022 ["WALES"; "SCOTLAND"]
         "All Ages"
  /\ gender_comparison_chart (sort_values melted_key sample_melted) 2022
       ["WALES"; "SCOTLAND"] "All Ages"
     = gender_comparison_chart sample_melted 2022 ["WALES"; "SCOTLAND"]
         "All Ages".
Proof.
  apply (@gender_comparison_ignores_row_order sample_melted
           (rev sample_melted) 2022 ["WALES"; "SCOTLAND"]
           ["SCOTLAND"; "WALES"] "All Ages").
  - apply Permutation_rev.
  - intros n. simpl. tauto.
Defined.

(** ** The two gender dicts (lines 70-71) *)

Lemma dict_set_new k v d :
  ~ In k (dict_keys d) -> dict_set k v d = (d ++ [(k, v)])%list.
Proof.
  induction d as [|[k' v'] d IH]; simpl; intros Hk; [reflexivity|].
  destruct (String.eqb_spec k' k) as [-> | _]; [tauto|].
  rewrite IH by tauto. reflexivity.
Qed.

Lemma invert_from d acc :
  NoDup (dict_values d) ->
  (forall v, In v (dict_values d) -> ~ In v (dict_keys acc)) ->
  fold_left (fun acc item => dict_set (snd item) (fst item) acc) d acc
  = (acc ++ map swap d)%list.
Proof.
  revert acc. induction d as [|[k v] d IH]; intros acc Hnd Hfresh; simpl.
  - now rewrite app_nil_r.
  - simpl in Hnd. inversion Hnd as [|? ? Hv Hnd']; subst.
    rewrite dict_set_new by (apply Hfresh; now left).
    rewrite IH; [now rewrite <- app_assoc | assumption |].
    intros v' Hv' Hin. unfold dict_keys in Hin.
    rewrite map_app, in_app_iff in Hin. destruct Hin as [Hin | [<- | []]].
    + apply (Hfresh v'); [now right | exact Hin].
    + contradiction.
Qed.

Lemma dict_get_In k v d :
  NoDup (dict_keys d) -> (dict_get k d = Some v <-> In (k, v) d).
Proof.
  induction d as [|[k' v'] d IH]; simpl; intros Hnd.
  - split; [discriminate | tauto].
  - inversion Hnd as [|? ? Hk Hnd']; subst.
    destruct (String.eqb_spec k' k) as [-> | Hne].
    + split.
      * intros [= ->]. now left.
      * intros [[= ->] | Hin]; [reflexivity|].
        exfalso. apply Hk. unfold dict_keys.
        change k with (fst (k, v)). now apply in_map.
    + rewrite (IH Hnd'). split; [tauto|].
      intros [[= -> ->] | Hin]; [congruence | exact Hin].
Qed.

(** X13: inverting a dict whose values are all different gives the dict
    that maps each value back to its key, in the same order: looking up a
    key and then its value in the inverse returns the key, and conversely. *)
Theorem invert_is_the_inverse (d : dict) :
  NoDup (dict_keys d) -> NoDup (dict_values d) ->
  dict_keys (invert d) = dict_values d
  /\ dict_values (invert d) = dict_keys d
  /\ forall k v, dict_get k d = Some v <-> dict_get v (invert d) = Some k.
Proof.
  intros Hk Hv.
  assert (Hinv : invert d = map swap d).
  { unfold invert. rewrite invert_from; [reflexivity | assumption |].
    intros v _ []. }
  rewrite Hinv. unfold dict_keys, dict_values. rewrite !map_map.
  split; [reflexivity|]. split; [reflexivity|].
  intros k v. rewrite (dict_get_In k v d Hk).
  rewrite dict_get_In.
  - rewrite in_map_iff. split.
    + intros Hin. exists (k, v). auto.
    + intros ([k' v'] & [= <- <-] & Hin). exact Hin.
  - unfold dict_keys. rewrite map_map. exact Hv.
Qed.

(** The statement of X13 on the dict of the genders. *)
Lemma invert_is_the_inverse_genders :
  dict_keys genders_options = dict_values genders_map
  /\ dict_values genders_options = dict_keys genders_map
  /\ forall k v, dict_get k genders_map = Some v <->
                 dict_get v genders_options = Some k.
Proof.
  apply (@invert_is_the_inverse genders_map).
  - unfold genders_map, dict_keys. simpl.
    repeat (apply NoDup_cons;
            [simpl; intros Hin;
             repeat (destruct Hin as [Hin | Hin]; [discriminate|]);
             exact Hin|]).
    apply NoDup_nil.
  - unfold genders_map, dict_values. simpl.
    repeat (apply NoDup_cons;
            [simpl; intros Hin;
             repeat (destruct Hin as [Hin | Hin]; [discriminate|]);
             exact Hin|]).
    apply NoDup_nil.
Defined.

(** ** The default location of the age distribution (line 153) *)

Lemma index_nth x l :
  In x l -> exists i, index x l = Some i /\ nth_error l i = Some x.
Proof.
  induction l as [|s l IH]; simpl; [tauto|].
  intros Hin. destruct (String.eqb_spec s x) as [-> | Hne].
  - exists 0%nat. auto.
  - destruct Hin as [-> | Hin]; [congruence|].
    destruct (IH Hin) as (i & Hi & Hnth).
    exists (S i). rewrite Hi. auto.
Qed.

(** X14: the index that preselects the location of the age distribution
    points at ENGLAND when the table has that name; otherwise it is 0, and
    the option there is the least name of the table; there is no option
    exactly when the table is empty. *)
Theorem default_location_is_england_or_first (melted : list Melted.row) :
  let options := age_gender_locations melted in
  (In "ENGLAND" options ->
   exists i, default_location_index options = Some i
             /\ nth_error options i = Some "ENGLAND")
  /\ (~ In "ENGLAND" options ->
      default_location_index options = Some 0%nat
      /\ forall first, nth_error options 0 = Some first ->
                       forall n, In n options -> str_le first n)
  /\ (options = [] <-> melted = []).
Proof.
  intros options. unfold default_location_index.
  split; [|split].
  - intros Hin. rewrite (proj2 (isin_In _ _) Hin). now apply index_nth.
  - intros Hnot.
    destruct (isin "ENGLAND" options) eqn:His;
      [apply isin_In in His; contradiction|].
    split; [reflexivity|].
    intros first Hfirst n Hn.
    destruct (sorted_unique_spec (map Melted.name melted)) as (Hs & _ & _).
    fold (age_gender_locations melted) in Hs. fold options in Hs.
    destruct options as [|o rest]; [discriminate|].
    injection Hfirst as ->.
    destruct Hn as [<- | Hn]; [now right|].
    left. inversion Hs as [|? ? _ Hall]; subst.
    rewrite Forall_forall in Hall. now apply Hall.
  - split.
    + intros Hopt. destruct melted as [|m melted']; [reflexivity|]. exfalso.
      assert (Hin : In (Melted.name m) options).
      { apply age_gender_locations_In. exists m. split; [now left | reflexivity]. }
      rewrite Hopt in Hin. destruct Hin.
    + intros ->. reflexivity.
Qed.

(** ** The age distribution (lines 147-208) *)

Lemma Z_leb_iff (x y : Z) : leb x y = true <-> x <= y.
Proof.
  unfold leb, cmp, Cmp_Z.
  destruct (Z.compare_spec x y); split; intros; try lia; congruence.
Qed.

(** The stable sort is one of the sorts that numpy may run on integers. *)
Definition stable_int_sorter : IntSorter :=
  {| sort_by_int := fun A key l => sort_values key l;
     sort_by_int_perm := fun A key l => sort_values_perm key l;
     sort_by_int_sorted := fun A key l =>
       @StronglySorted_impl A _ (fun a c => key a <= key c) _
         (fun a c => proj1 (Z_leb_iff (key a) (key c)))
         (sort_values_sorted key l) |}.

Lemma genders_options_get display g :
  dict_get display genders_options = Some g <->
  (display = "Male" /\ g = "M") \/ (display = "Female" /\ g = "F").
Proof.
  change genders_options with [("Male", "M"); ("Female", "F")].
  cbn [dict_get].
  destruct (String.eqb_spec "Male" display) as [<- | Hm].
  - split; [intros [= <-]; auto|].
    intros [[_ ->] | [Hf _]]; [reflexivity | discriminate].
  - destruct (String.eqb_spec "Female" display) as [<- | Hf].
    + split; [intros [= <-]; auto|].
      intros [[Hm' _] | [_ ->]]; [discriminate | reflexivity].
    + split; [discriminate|].
      intros [[-> _] | [-> _]]; congruence.
Qed.

Lemma genders_round_trip display g :
  dict_get display genders_options = Some g ->
  dict_get g genders_map = Some display /\ g <> "".
Proof.
  intros Hg. apply genders_options_get in Hg as [[-> ->] | [-> ->]];
    split; (reflexivity || discriminate).
Qed.

Lemma filtered_age_detail_In numpy_sort detail location gender d :
  In d (filtered_df_age_detail numpy_sort detail location gender) <->
  In d detail /\ Detail.name d = location /\ Detail.sex d = gender.
Proof.
  unfold filtered_df_age_detail.
  rewrite <- !String.eqb_eq, <- andb_true_iff.
  rewrite <- (filter_In
                (fun d => String.eqb (Detail.name d) location
                          && String.eqb (Detail.sex d) gender) d detail).
  split.
  - apply Permutation_in, Permutation_sym, sort_by_int_perm.
  - apply Permutation_in, sort_by_int_perm.
Qed.

Lemma age_chart_selected numpy_sort detail loc display g :
  loc <> "" -> dict_get display genders_options = Some g ->
  age_distribution_chart numpy_sort detail (Some loc) display
  = match filtered_df_age_detail numpy_sort detail loc g with
    | [] =>
        Some (Placeholder
                (create_empty_figure
                   ("No data for " ++ loc ++ " / " ++ display)))
    | rows => Some (Lines (fig_age_gender rows display loc))
    end.
Proof.
  intros Hloc Hg. unfold age_distribution_chart. rewrite Hg.
  destruct (genders_round_trip display Hg) as [Hback Hne].
  apply String.eqb_neq in Hloc, Hne. cbn [falsy]. rewrite Hloc, Hne, Hback.
  cbn [orb]. now destruct (filtered_df_age_detail numpy_sort detail loc g).
Qed.

(** X11: the age distribution section fails with a KeyError exactly when
    the gender shown is not a value of [genders_map]; with Male or Female
    it shows the Please select placeholder when no location is selected,
    the No data placeholder, naming the location and the gender shown, when
    no detail row has the location and the sex, and a line chart
    otherwise. *)
Theorem age_distribution_outcomes (numpy_sort : IntSorter)
  (detail : list Detail.row) (location : option string) (display : string) :
  let chart := age_distribution_chart numpy_sort detail location display in
  (chart = None <-> ~ In display (dict_values genders_map))
  /\ (In display (dict_values genders_map) -> falsy location = true ->
      chart = Some (Placeholder
                      (create_empty_figure
                         "Please select location and gender for age distribution.")))
  /\ (forall loc g,
         location = Some loc -> loc <> "" ->
         dict_get display genders_options = Some g ->
         ((forall d, In d detail ->
                     ~ (Detail.name d = loc /\ Detail.sex d = g)) ->
          chart = Some (Placeholder
                          (create_empty_figure
                             ("No data for " ++ loc ++ " / " ++ display))))
         /\ ((exists d, In d detail /\ Detail.name d = loc
                        /\ Detail.sex d = g) ->
             exists fig, chart = Some (Lines fig)
                         /\ go_Scatter.data fig <> [])).
Proof.
  intros chart.
  assert (Hvalues : In display (dict_values genders_map) <->
                    exists g, dict_get display genders_options = Some g).
  { cbn [genders_map dict_values map snd In]. split.
    - intros [<- | [<- | []]]; eexists; reflexivity.
    - intros [g Hg]. apply genders_options_get in Hg as [[-> _] | [-> _]]; auto. }
  split; [|split].
  - rewrite Hvalues. unfold chart, age_distribution_chart. split.
    + intros Hnone [g Hg]. rewrite Hg in Hnone.
      destruct (genders_round_trip display Hg) as [Hback _].
      rewrite Hback in Hnone.
      destruct (falsy location || String.eqb g ""); [discriminate|].
      destruct (filtered_df_age_detail numpy_sort detail _ g); discriminate.
    + intros Hnot.
      destruct (dict_get display genders_options) as [g|] eqn:Hg;
        [|reflexivity].
      exfalso. apply Hnot. eauto.
  - intros Hin Hfalsy. apply Hvalues in Hin as [g Hg].
    unfold chart, age_distribution_chart. rewrite Hg, Hfalsy. reflexivity.
  - intros loc g -> Hloc Hg. unfold chart.
    rewrite (@age_chart_selected numpy_sort detail loc display g Hloc Hg). split.
    + intros Hnone.
      destruct (filtered_df_age_detail numpy_sort detail loc g) as [|d rows]
        eqn:Hrows; [reflexivity|]. exfalso.
      assert (Hd : In d (filtered_df_age_detail numpy_sort detail loc g))
        by (rewrite Hrows; now left).
      apply filtered_age_detail_In in Hd as [Hd Hkey].
      exact (Hnone d Hd Hkey).
    + intros (d & Hd & Hname & Hsex).
      assert (Hin : In d (filtered_df_age_detail numpy_sort detail loc g)).
      { apply filtered_age_detail_In. auto. }
      destruct (filtered_df_age_detail numpy_sort detail loc g) as [|d' rows];
        [destruct Hin|].
      eexists. split; [reflexivity | discriminate].
Qed.

Lemma sorted_nodup_strict {A} (key : A -> Z) l :
  StronglySorted (fun a c => key a <= key c) l -> NoDup (map key l) ->
  StronglySorted (fun a c => key a < key c) l.
Proof.
  induction 1 as [|a l Hl IH Ha]; intros Hnd; constructor.
  - apply IH. now inversion Hnd.
  - inversion Hnd as [|? ? Hnotin _]; subst.
    apply Forall_forall. intros c Hc. rewrite Forall_forall in Ha.
    pose proof (Ha c Hc) as Hle.
    assert (key a <> key c).
    { intros Heq. apply Hnotin. rewrite Heq. now apply in_map. }
    lia.
Qed.

(** X12: when a location, Male or Female, and at least one matching row
    are given, the line chart has the series Population 2011 and Population
    2022 over the same x values: the age labels of the rows of that
    location and sex in ascending order of numeric age, with the two
    populations of the same rows as y values; its title names the gender
    shown and the location.  When the numeric ages of these rows are all
    different the rows are the same for every sort. *)
Theorem age_distribution_lines (numpy_sort : IntSorter)
  (detail : list Detail.row) (loc display g : string) :
  loc <> "" ->
  dict_get display genders_options = Some g ->
  (exists d, In d detail /\ Detail.name d = loc /\ Detail.sex d = g) ->
  let matching := rows_of_location_and_sex detail loc g in
  let rows := filtered_df_age_detail numpy_sort detail loc g in
  let fig := fig_age_gender rows display loc in
  age_distribution_chart numpy_sort detail (Some loc) display
  = Some (Lines fig)
  /\ Permutation matching rows
  /\ StronglySorted
       (fun a c => Detail.age_numeric a <= Detail.age_numeric c) rows
  /\ map scatter_series (go_Scatter.data fig)
     = [ ("Population 2011", map Detail.age rows,
          map Detail.population_2011 rows);
         ("Population 2022", map Detail.age rows,
          map Detail.population_2022 rows) ]
  /\ go_Scatter.title (go_Scatter.layout fig)
     = display ++ " Population Age Distribution in " ++ loc
  /\ (NoDup (map Detail.age_numeric matching) ->
      rows = sort_values Detail.age_numeric matching).
Proof.
  intros Hloc Hg (d & Hd & Hname & Hsex) matching rows fig.
  assert (Hperm : Permutation matching rows) by apply sort_by_int_perm.
  assert (Hsorted : StronglySorted
                      (fun a c => Detail.age_numeric a <= Detail.age_numeric c)
                      rows) by apply sort_by_int_sorted.
  split; [|split; [exact Hperm | split; [exact Hsorted | split;
            [reflexivity | split; [reflexivity|]]]]].
  - rewrite (@age_chart_selected numpy_sort detail loc display g Hloc Hg).
    assert (Hin : In d rows) by (apply filtered_age_detail_In; auto).
    unfold fig. fold rows. destruct rows; [destruct Hin | reflexivity].
  - intros Hnd.
    apply (StronglySorted_In_eq
             (R := fun a c => Detail.age_numeric a < Detail.age_numeric c)).
    + intros a. lia.
    + intros a c e. lia.
    + apply sorted_nodup_strict; [exact Hsorted|].
      eapply Permutation_NoDup; [|exact Hnd].
      now apply Permutation_map.
    + apply sorted_nodup_strict.
      * eapply StronglySorted_impl;
          [|apply (sort_values_sorted Detail.age_numeric matching)].
        intros a c. apply Z_leb_iff.
      * eapply Permutation_NoDup; [|exact Hnd].
        apply Permutation_map, sort_values_perm.
    + intros a. split; intros Ha.
      * apply (Permutation_in _ (sort_values_perm Detail.age_numeric matching)).
        now apply (Permutation_in _ (Permutation_sym Hperm)).
      * apply (Permutation_in _ Hperm).
        now apply (Permutation_in _
                     (Permutation_sym
                        (sort_values_perm Detail.age_numeric matching))).
Qed.

(** The statement of X12 on the sample table, for the women of Scotland. *)
Lemma age_distribution_lines_sample :
  let matching := rows_of_location_and_sex sample_detail "SCOTLAND" "F" in
  let rows :=
    filtered_df_age_detail stable_int_sorter sample_detail "SCOTLAND" "F" in
  let fig := fig_age_gender rows "Female" "SCOTLAND" in
  age_distribution_chart stable_int_sorter sample_detail (Some "SCOTLAND")
    "Female"
  = Some (Lines fig)
  /\ Permutation matching rows
  /\ StronglySorted
       (fun a c => Detail.age_numeric a <= Detail.age_numeric c) rows
  /\ map scatter_series (go_Scatter.data fig)
     = [ ("Population 2011", map Detail.age rows,
          map Detail.population_2011 rows);
         ("Population 2022", map Detail.age rows,
          map Detail.population_2022 rows) ]
  /\ go_Scatter.title (go_Scatter.layout fig)
     = "Female" ++ " Population Age Distribution in " ++ "SCOTLAND"
  /\ (NoDup (map Detail.age_numeric matching) ->
      rows = sort_values Detail.age_numeric matching).
Proof.
  apply (@age_distribution_lines stable_int_sorter sample_detail "SCOTLAND"
           "Female" "F").
  - discriminate.
  - reflexivity.
  - eexists. split; [|split].
    + unfold sample_detail. right. right. left. reflexivity.
    + reflexivity.
    + reflexivity.
Defined.

Example sample_age_distribution :
  option_map
    (fun chart =>
       match chart with
       | Lines fig => map scatter_series (go_Scatter.data fig)
       | Placeholder _ => []
       end)
    (age_distribution_chart stable_int_sorter
       (fst (tables_of [ raw_row "WALES" "F" "90+" 5 6;
                         raw_row "WALES" "F" "9" 7 8;
                         raw_row "WALES" "F" "10" 3 4 ]))
       (Some "WALES") "Female")
  = Some [ ("Population 2011", [PyStr "9"; PyStr "10"; PyStr "90+"], [7; 3; 5]);
           ("Population 2022", [PyStr "9"; PyStr "10"; PyStr "90+"], [8; 4; 6]) ].
Proof. vm_compute. reflexivity. Qed.

(** ** Tables with plain age labels are accepted (line 42) *)

Lemma digit_cases c :
  is_digit c = true ->
  In c ["0"; "1"; "2"; "3"; "4"; "5"; "6"; "7"; "8"; "9"]%char.
Proof.
  destruct c as [[] [] [] [] [] [] [] []]; intros Hc;
    try discriminate Hc; cbn; auto 12.
Qed.

Lemma scan_digits s :
  forall acc k,
    all_digits s = true -> 0 <= acc ->
    exists v,
      PyLong.scan s false acc k = Some (v, (k + String.length s)%nat, "")
      /\ acc * 10 ^ Z.of_nat (String.length s) <= v
         < (acc + 1) * 10 ^ Z.of_nat (String.length s).
Proof.
  induction s as [|c s IH]; intros acc k Hall Hacc.
  - exists acc. cbn [PyLong.scan String.length]. rewrite Nat.add_0_r.
    split; [reflexivity|]. cbn. lia.
  - cbn [all_digits] in Hall. apply andb_true_iff in Hall as [Hc Hs].
    assert (Hd : exists d, PyLong.digit_value c = Some d /\ 0 <= d <= 9
                           /\ PyLong.is_underscore c = false).
    { apply digit_cases in Hc. cbn [In] in Hc.
      repeat (destruct Hc as [<- | Hc];
              [match goal with
               | |- exists d, PyLong.digit_value ?ch = _ /\ _ =>
                   exists (Z.of_nat (nat_of_ascii ch) - 48)
               end;
               split; [reflexivity | split; [cbn; lia | reflexivity]]|]).
      destruct Hc. }
    destruct Hd as (d & Hdv & Hd & Hus).
    destruct (IH (10 * acc + d) (S k) Hs ltac:(lia)) as (v & Hv & Hb).
    exists v. cbn [PyLong.scan String.length]. rewrite Hus, Hdv, Hv.
    split; [do 3 f_equal; lia|].
    rewrite Nat2Z.inj_succ, Z.pow_succ_r by lia. nia.
Qed.

Lemma digits_parse s :
  s <> "" -> all_digits s = true -> (String.length s <= 18)%nat ->
  exists v, py_int (PyStr s) = Some v /\ 0 <= v < 10 ^ 18.
Proof.
  intros Hne Hall Hlen. destruct s as [|c s]; [congruence|].
  destruct (@scan_digits (String c s) 0 0%nat Hall ltac:(lia))
    as (v & Hv & Hb).
  exists v. split.
  - cbn [all_digits] in Hall. apply andb_true_iff in Hall as [Hc _].
    apply digit_cases in Hc. cbn [In] in Hc. cbn [py_int].
    assert (Hlimit : (PyLong.MAX_STR_DIGITS <? 0 + String.length (String c s))%nat
                     = false).
    { apply Nat.ltb_ge. unfold PyLong.MAX_STR_DIGITS. lia. }
    repeat (destruct Hc as [<- | Hc];
            [unfold PyLong.PyLong_FromString, PyLong.long_from_string_base;
             match goal with
             | |- context [PyLong.skip_spaces (String ?a s)] =>
                 change (PyLong.skip_spaces (String a s)) with (String a s)
             end;
             cbv iota beta; rewrite Hv, Hlimit;
             cbn [String.length Nat.add Nat.eqb PyLong.skip_spaces];
             f_equal; lia|]).
    destruct Hc.
  - assert (Hpow : 10 ^ Z.of_nat (String.length (String c s)) <= 10 ^ 18).
    { apply Z.pow_le_mono_r; lia. }
    lia.
Qed.

Lemma plain_age_value o :
  plain_age o -> exists a, age_value o = Ok a /\ 0 <= a.
Proof.
  intros [-> | (s & -> & Hne & Hall & Hlen)].
  - exists 90. split; [reflexivity | lia].
  - destruct (digits_parse Hne Hall Hlen) as (v & Hv & Hb).
    exists v. split; [|lia].
    unfold age_value.
    destruct (pyobj_eqb (PyStr s) (PyStr "90+")) eqn:Heq.
    + apply pyobj_eqb_eq in Heq. injection Heq as ->. discriminate Hall.
    + unfold int64_of_pyobj. rewrite Hv.
      assert (Hfit : fits_int64 v = true).
      { unfold fits_int64, INT64_MIN, INT64_MAX.
        apply andb_true_iff. split; apply Z.leb_le; lia. }
      now rewrite Hfit.
Qed.

(** X16: a raw table whose age labels are the literal 90+ or strings of
    one to eighteen decimal digits is accepted by the preprocessor; no
    numeric age of the result is negative and every detail row has one of
    the six bands. *)
Theorem plain_ages_are_accepted (raw : list Raw.row) :
  Forall (fun r => plain_age (Raw.age r)) raw ->
  exists detail melted,
    preprocess_age_gender_data raw = Ok (detail, melted)
    /\ Forall (fun d => 0 <= Detail.age_numeric d) detail
    /\ Forall (fun d => exists band,
                   In band labels /\ Detail.age_band d = Some band) detail.
Proof.
  intros Hplain.
  assert (Hconv : Forall (fun r => exists a, age_value (Raw.age r) = Ok a) raw).
  { eapply Forall_impl; [|exact Hplain].
    intros r Hr. destruct (plain_age_value Hr) as (a & Ha & _). eauto. }
  destruct (preprocess_total Hconv) as (detail & melted & Hp).
  exists detail, melted. split; [exact Hp|].
  pose proof (preprocess_Ok _ Hp) as [Hd _].
  assert (Hpos : Forall (fun d => 0 <= Detail.age_numeric d) detail).
  { apply Forall_forall. intros d Hin.
    destruct (Forall2_In_r d Hd Hin) as (r & Hr & a & Ha & ->).
    rewrite Forall_forall in Hplain.
    destruct (plain_age_value (Hplain r Hr)) as (a' & Ha' & Hpos).
    cbn [detail_of Detail.age_numeric]. congruence. }
  split; [exact Hpos|].
  apply Forall_forall. intros d Hin. rewrite Forall_forall in Hpos.
  destruct (cut_in_interval (Hpos d Hin)) as (lo & hi & band & Hcut & Hint & _).
  exists band. split.
  - unfold intervals in Hint. now apply in_combine_r in Hint.
  - now rewrite (detail_band_of_age raw d Hp Hin).
Qed.

(** ** The further statements on the sample tables *)

(** The statement of X3 on the sample density table. *)
Lemma density_chart_shows_the_csv_values_sample :
  exists bar_2011 bar_2022,
    go.data (density_chart stable_sorter
               (preprocess_density_data sample_density_raw)
               ["WALES"; "ENGLAND"])
    = [bar_2011; bar_2022]
    /\ go.name bar_2011 = "Density 2011"
    /\ go.name bar_2022 = "Density 2022"
    /\ go.x bar_2011 = go.x bar_2022
    /\ List.length (go.y bar_2011) = List.length (go.x bar_2011)
    /\ List.length (go.y bar_2022) = List.length (go.x bar_2022)
    /\ Permutation
         (combine (go.x bar_2011) (combine (go.y bar_2011) (go.y bar_2022)))
         (map (fun r => (DensityRaw.Name r,
                         (DensityRaw.people_per_sq_km_2011 r,
                          DensityRaw.people_per_sq_km_2022 r)))
            (filter (fun r => isin (DensityRaw.Name r) ["WALES"; "ENGLAND"])
               sample_density_raw)).
Proof.
  apply (@density_chart_shows_the_csv_values stable_sorter sample_density_raw
           ["WALES"; "ENGLAND"]).
  discriminate.
Defined.

(** The statement of X5 on the sample density table. *)
Lemma density_options_are_all_plotted_sample :
  let chart :=
    density_chart stable_sorter (preprocess_density_data sample_density_raw)
      ["WALES"; "ENGLAND"] in
  List.length (go.data chart) = 2%nat
  /\ forall bar, In bar (go.data chart) ->
                 forall n, In n (go.x bar) <-> In n ["WALES"; "ENGLAND"].
Proof.
  apply (@density_options_are_all_plotted stable_sorter
           (preprocess_density_data sample_density_raw) ["WALES"; "ENGLAND"]).
  - discriminate.
  - intros n Hn. vm_compute. simpl in Hn.
    destruct Hn as [<- | [<- | []]]; auto.
Defined.

(** The statement of X6 on the sample density table. *)
Lemma density_axis_is_consistent_sample :
  let chart :=
    density_chart stable_sorter (preprocess_density_data sample_density_raw)
      ["WALES"; "ENGLAND"] in
  exists categories,
    go.categoryarray (go.layout chart) = Some categories
    /\ go.categoryorder (go.layout chart) = Some "array"
    /\ Permutation ["WALES"; "ENGLAND"] categories
    /\ StronglySorted str_le categories
    /\ forall bar, In bar (go.data chart) ->
                   StronglySorted str_le (go.x bar)
                   /\ incl (go.x bar) categories.
Proof.
  apply (@density_axis_is_consistent stable_sorter
           (preprocess_density_data sample_density_raw) ["WALES"; "ENGLAND"]).
  discriminate.
Defined.

(** The statement of X7 on the sample table. *)
Lemma gender_axis_is_consistent_sample :
  let chart :=
    gender_comparison_chart sample_melted 2022 ["WALES"; "SCOTLAND"]
      "All Ages" in
  exists categories,
    go.categoryarray (go.layout chart) = Some categories
    /\ Permutation ["WALES"; "SCOTLAND"] categories
    /\ StronglySorted str_le categories
    /\ forall bar, In bar (go.data chart) ->
                   StronglySorted str_lt (go.x bar)
                   /\ NoDup (go.x bar)
                   /\ incl (go.x bar) categories
                   /\ List.length (go.y bar) = List.length (go.x bar).
Proof.
  apply (@gender_axis_is_consistent sample_melted 2022 ["WALES"; "SCOTLAND"]
           "All Ages").
  - discriminate.
  - discriminate.
  - discriminate.
  - vm_compute. discriminate.
Defined.

(** The statement of X15 on the sample density table. *)
Lemma density_filter_reads_selection_as_set_sample :
  filtered_df_density stable_sorter
    (preprocess_density_data sample_density_raw) ["WALES"; "ENGLAND"]
  = filtered_df_density stable_sorter
      (preprocess_density_data sample_density_raw)
      ["ENGLAND"; "WALES"; "ENGLAND"].
Proof.
  apply (@density_filter_reads_selection_as_set stable_sorter
           (preprocess_density_data sample_density_raw)
           ["WALES"; "ENGLAND"] ["ENGLAND"; "WALES"; "ENGLAND"]).
  intros n. simpl. tauto.
Defined.

(** The statement of X16 on the sample table. *)
Lemma plain_ages_are_accepted_sample :
  exists detail melted,
    preprocess_age_gender_data sample_raw = Ok (detail, melted)
    /\ Forall (fun d => 0 <= Detail.age_numeric d) detail
    /\ Forall (fun d => exists band,
                   In band labels /\ Detail.age_band d = Some band) detail.
Proof.
  apply (@plain_ages_are_accepted sample_raw).
  unfold sample_raw, raw_row.
  repeat (apply Forall_cons;
          [cbn [Raw.age];
           first [ left; reflexivity
                 | right; eexists; split; [reflexivity|];
                   split; [discriminate|];
                   split; [reflexivity | simpl; lia] ]|]).
  apply Forall_nil.
Defined.

(** ** The density placeholder on the selections of the widget (lines 96-109) *)


